(** * Signature verification helpers of [util/util.go]

    A shallow embedding of the Go package [util] of eos-external-tools:
    the command runners ([RunSystemCmd], [RunSystemCmdInDir], [CheckOutput]),
    the git revision helpers ([typeOfGitRevision], [GetVersionFromRevision])
    and the three signature checks ([VerifyRpmSignature],
    [VerifyTarballSignature], [VerifyGitSignature]).

    The Go functions talk to the operating system (temporary directories,
    subprocesses).  They are embedded as computations in a state monad over
    a [World]: the set of paths that exist, the global quiet flag and the
    history of system calls made so far.  What the operating system answers
    is left open: it is given by an [Env], an arbitrary oracle, and every
    theorem below holds for all of them. *)

From Stdlib Require Import ZArith String Ascii List DecimalString.
From stdpp Require Import base gmap sets strings.
Import ListNotations.

(** ** Go strings and [fmt] *)

Module GoString.

Definition nl : string := String (ascii_of_nat 10) EmptyString.

(** [strings.Contains(s, substr)]: [substr] occurs somewhere in [s]. *)
Fixpoint Contains (s substr : string) : bool :=
  String.prefix substr s ||
  match s with
  | EmptyString => false
  | String _ s' => Contains s' substr
  end.

(** [strings.Join(elems, sep)]. *)
Definition Join (elems : list string) (sep : string) : string :=
  String.concat sep elems.

(** [%d] applied to an [int]. *)
Definition fmt_d (z : Z) : string := NilZero.string_of_int (Z.to_int z).

End GoString.
Import GoString.

(** ** Go errors *)

(** The two kinds of [error] values that the package tells apart:
    [*exec.ExitError] (the subprocess ran and exited unsuccessfully; it
    carries the process state, whose [String()] is the error text, the exit
    code and the captured standard error) and any other error, known only by
    its text.  [nil] is [None] in an [option error]. *)
Inductive error : Type :=
| ExitError (state : string) (code : Z) (stderr : string)
| errorString (msg : string).

(** [err.Error()] *)
Definition Error (e : error) : string :=
  match e with
  | ExitError state _ _ => state
  | errorString msg => msg
  end.

(** [exitErr.ExitCode()] and [exitErr.Stderr] *)
Definition ExitCode (e : error) : Z :=
  match e with ExitError _ code _ => code | errorString _ => (-1)%Z end.

Module Fmt.

(** Operands of a formatting call. *)
Inductive Arg : Type :=
| AStr (s : string)      (* a string, or a named string type as ErrPrefix *)
| ABytes (b : string)    (* a []byte *)
| AErr (e : error)       (* an error: printed through Error() *)
| AInt (z : Z).

Definition verb_s (a : Arg) : string :=
  match a with
  | AStr s => s
  | ABytes b => b
  | AErr e => Error e
  | AInt z => "%!s(int=" +:+ fmt_d z +:+ ")"
  end.

Definition verb_d (a : Arg) : string :=
  match a with
  | AInt z => fmt_d z
  | AStr s => "%!d(string=" +:+ s +:+ ")"
  | ABytes b => "%!d([]uint8=" +:+ b +:+ ")"
  | AErr e => "%!d(error=" +:+ Error e +:+ ")"
  end.

(** [fmt.Sprintf] for the verbs the package uses, [%s] and [%d], and the
    escape [%%].  A verb without operand prints Go's [%!v(MISSING)]; other
    characters are copied. *)
Fixpoint Sprintf (format : string) (a : list Arg) : string :=
  match format with
  | EmptyString => EmptyString
  | String c rest =>
      if Ascii.eqb c "%" then
        match rest with
        | String v rest' =>
            if Ascii.eqb v "s" || Ascii.eqb v "d" then
              match a with
              | x :: a' =>
                  (if Ascii.eqb v "s" then verb_s x else verb_d x)
                    +:+ Sprintf rest' a'
              | [] => "%!" +:+ String v "(MISSING)" +:+ Sprintf rest' []
              end
            else if Ascii.eqb v "%" then String "%" (Sprintf rest' a)
            else String c (String v (Sprintf rest' a))
        | EmptyString => "%!(NOVERB)"
        end
      else String c (Sprintf rest a)
  end.

(** [fmt.Errorf] without [%w]: a fresh error with the formatted text. *)
Definition Errorf (format : string) (a : list Arg) : error :=
  errorString (Sprintf format a).

End Fmt.
Import Fmt.

(** ** The operating system *)

(** [io.Writer]s a subprocess can be connected to. *)
Inductive Writer : Type := os_Stdout | os_Stderr | io_Discard.

(** [exec.Cmd], with the fields the package sets. *)
Record Cmd : Type := mkCmd {
  Name : string;
  Args : list string;
  Dir : string;
  Stdout : option Writer;
  Stderr : option Writer
}.

(** [exec.Command(name, arg...)] *)
Definition exec_Command (name : string) (arg : list string) : Cmd :=
  {| Name := name; Args := arg; Dir := ""; Stdout := None; Stderr := None |}.

(** System calls, with what they returned. *)
Inductive Event : Type :=
| EvMkdirTemp (dir pattern : string) (res : error + string)
| EvRun (c : Cmd) (err : option error)
| EvOutput (c : Cmd) (out : string) (err : option error)
| EvRemoveAll (path : string) (err : option error).

Record World : Type := mkWorld {
  fs : gset string;          (* the paths that exist *)
  GlobalVar_Quiet : bool;    (* GlobalVar.Quiet *)
  trace : list Event         (* system calls so far, oldest first *)
}.

(** What the operating system answers.  A subprocess returns its standard
    output and how it ended, and leaves the file system in a new state of its
    choice; all of this may depend on the whole world, history included.
    [sys_below path p] says whether, as this machine resolves names, [p] is
    what [path] names or lies below it.  [sys_RemoveAll] says how a removal
    ends: without error, or with an error and the paths that it could not
    remove. *)
Record Env : Type := mkEnv {
  sys_MkdirTemp : World -> string -> string -> error + string;
  sys_exec : World -> Cmd -> (string * option error) * gset string;
  filepath_Join : string -> string -> string;
  sys_below : string -> string -> bool;
  sys_RemoveAll : World -> string -> option (error * gset string)
}.

(** ** The state monad of world-changing computations *)

Definition M (A : Type) : Type := World -> A * World.

Definition ret {A} (a : A) : M A := fun w => (a, w).

Definition bind {A B} (m : M A) (k : A -> M B) : M B :=
  fun w => let (a, w') := m w in k a w'.

Notation "'let*' x ':=' m 'in' k" := (bind m (fun x => k))
  (at level 10, x name, m at level 100, k at level 200).
Notation "'let*' ( x , y ) ':=' m 'in' k" :=
  (bind m (fun p => let '(x, y) := p in k))
  (at level 10, x name, y name, m at level 100, k at level 200).

(** [defer d; body]: [d] runs when the function returns, whatever
    [body] returned; its own result is dropped. *)
Definition defer {A B} (d : M B) (body : M A) : M A :=
  fun w => let (a, w') := body w in (a, (d w').2).

Definition log (ev : Event) (w : World) : World :=
  {| fs := fs w; GlobalVar_Quiet := GlobalVar_Quiet w;
     trace := trace w ++ [ev] |}.

Definition set_fs (s : gset string) (w : World) : World :=
  {| fs := s; GlobalVar_Quiet := GlobalVar_Quiet w; trace := trace w |}.

(** ** util.go, the types and the git revision helpers *)

Definition ErrPrefix : Type := string.

Record GitSpec : Type := mkGitSpec {
  Revision : string;
  ClonedDir : string
}.

(** Returns if the provided revision is a "COMMIT" or a "TAG".  The body in
    the source is the single statement [return ""]. *)
Definition typeOfGitRevision (spec : GitSpec) : string := "".

(** Returns a unique version number based on the commit/tag.  The body in the
    source holds comments only (tag: as is; short commit: as is; long commit:
    reduce size) and the single statement [return ""]. *)
Definition GetVersionFromRevision (spec : GitSpec) : string := "".

Section Util.

Variable env : Env.

(** [os.MkdirTemp(dir, pattern)]: the operating system picks the name; on
    success the new directory exists. *)
Definition os_MkdirTemp (dir pattern : string) : M (string * option error) :=
  fun w =>
    let res := sys_MkdirTemp env w dir pattern in
    match res with
    | inl e => (("", Some e), log (EvMkdirTemp dir pattern res) w)
    | inr d =>
        ((d, None), log (EvMkdirTemp dir pattern res) (set_fs ({[ d ]} ∪ fs w) w))
    end.

(** [os.RemoveAll(path)]: removes [path] and any children it contains; it
    removes everything it can and returns the first error it meets.  For
    the empty path it returns nil and does nothing.  Paths that are neither
    [path] nor below it are never touched. *)
Definition os_RemoveAll (path : string) : M (option error) :=
  fun w =>
    if String.eqb path "" then (None, log (EvRemoveAll path None) w)
    else
      match sys_RemoveAll env w path with
      | Some (e, kept) =>
          (Some e,
           log (EvRemoveAll path (Some e))
             (set_fs
                (filter (fun p => sys_below env path p = false \/ p ∈ kept)
                   (fs w)) w))
      | None =>
          (None,
           log (EvRemoveAll path None)
             (set_fs (filter (fun p => sys_below env path p = false) (fs w)) w))
      end.

(** [cmd.Run()] *)
Definition Cmd_Run (c : Cmd) : M (option error) :=
  fun w =>
    let '((_, err), fs') := sys_exec env w c in
    (err, log (EvRun c err) (set_fs fs' w)).

(** [cmd.Output()] *)
Definition Cmd_Output (c : Cmd) : M (string * option error) :=
  fun w =>
    let '((out, err), fs') := sys_exec env w c in
    ((out, err), log (EvOutput c out err) (set_fs fs' w)).

Definition get_Quiet : M bool := fun w => (GlobalVar_Quiet w, w).

(** *** util.go, the functions that run commands *)

Definition RunSystemCmd (name : string) (arg : list string) : M (option error) :=
  let cmd := exec_Command name arg in
  let cmd := {| Name := Name cmd; Args := Args cmd; Dir := Dir cmd;
                Stdout := Stdout cmd; Stderr := Some os_Stderr |} in
  let* quiet := get_Quiet in
  let cmd := {| Name := Name cmd; Args := Args cmd; Dir := Dir cmd;
                Stdout := Some (if negb quiet then os_Stdout else io_Discard);
                Stderr := Stderr cmd |} in
  let* err := Cmd_Run cmd in
  ret err.

Definition RunSystemCmdInDir (dir name : string) (arg : list string)
  : M (option error) :=
  let cmd := exec_Command name arg in
  let cmd := {| Name := Name cmd; Args := Args cmd; Dir := dir;
                Stdout := Stdout cmd; Stderr := Stderr cmd |} in
  let cmd := {| Name := Name cmd; Args := Args cmd; Dir := Dir cmd;
                Stdout := Stdout cmd; Stderr := Some os_Stderr |} in
  let* quiet := get_Quiet in
  let cmd := {| Name := Name cmd; Args := Args cmd; Dir := Dir cmd;
                Stdout := Some (if negb quiet then os_Stdout else io_Discard);
                Stderr := Stderr cmd |} in
  let* err := Cmd_Run cmd in
  ret err.

Definition CheckOutput (name : string) (arg : list string)
  : M (string * option error) :=
  let cmd := exec_Command name arg in
  let* (output, err) := Cmd_Output cmd in
  match err with
  | Some err =>
      match err with
      | ExitError _ _ stderr as exitErr =>
          ret (output,
               Some (Errorf
                 ("Running '%s %s': exited with exit-code %d" +:+ nl +:+
                  "stderr:" +:+ nl +:+ "%s")
                 [AStr name; AStr (Join arg " "); AInt (ExitCode exitErr);
                  ABytes stderr]))
      | _ =>
          ret (output,
               Some (Errorf "Running '%s %s' failed with '%s'"
                 [AStr name; AStr (Join arg " "); AErr err]))
      end
  | None => ret (output, None)
  end.

Definition VerifyRpmSignature (rpmPath : string) (errPrefix : ErrPrefix)
  : M (option error) :=
  let* (output, err) := CheckOutput "rpm" ["-K"; rpmPath] in
  match err with
  | Some err => ret (Some (Errorf "%s:%s" [AStr errPrefix; AErr err]))
  | None =>
      if negb (Contains output "digests signatures OK") then
        ret (Some (Errorf
               ("%sSignature check of %s failed. rpm -K output:" +:+ nl +:+ "%s")
               [AStr errPrefix; AStr rpmPath; AStr output]))
      else ret None
  end.

Definition VerifyTarballSignature
  (tarballPath tarballSigPath pubKeyPath : string) (errPrefix : ErrPrefix)
  : M (option error) :=
  let* (tmpDir, mkdtErr) := os_MkdirTemp "" "eext-keyring" in
  match mkdtErr with
  | Some mkdtErr =>
      ret (Some (Errorf "%sError '%s'creating temp dir for keyring"
                   [AStr errPrefix; AErr mkdtErr]))
  | None =>
      defer (os_RemoveAll tmpDir) (
        let keyRingPath := filepath_Join env tmpDir "eext.gpg" in
        let baseArgs :=
          ["--homedir"; tmpDir;
           "--no-default-keyring"; "--keyring"; keyRingPath] in
        let gpgCmd := "gpg" in
        (* Create keyring *)
        let createKeyRingCmdArgs := baseArgs ++ ["--fingerprint"] in
        let* err := RunSystemCmd gpgCmd createKeyRingCmdArgs in
        match err with
        | Some err =>
            ret (Some (Errorf "%sError '%s'creating keyring"
                         [AStr errPrefix; AErr err]))
        | None =>
            (* Import public key *)
            let importKeyCmdArgs := baseArgs ++ ["--import"; pubKeyPath] in
            let* err := RunSystemCmd gpgCmd importKeyCmdArgs in
            match err with
            | Some err =>
                ret (Some (Errorf "%sError '%s' importing public-key %s"
                             [AStr errPrefix; AErr err; AStr pubKeyPath]))
            | None =>
                let verifySigArgs :=
                  baseArgs ++ ["--verify"; tarballSigPath; tarballPath] in
                let* (output, err) := CheckOutput gpgCmd verifySigArgs in
                match err with
                | Some err =>
                    ret (Some (Errorf
                      ("%sError verifying signature %s for tarball %s with pubkey %s."
                       +:+ nl +:+ "gpg --verify err: %sstdout:%s")
                      [AStr errPrefix; AStr tarballSigPath; AStr tarballPath;
                       AStr pubKeyPath; AErr err; AStr output]))
                | None => ret None
                end
            end
        end)
  end.

Definition VerifyGitSignature
  (pubKeyPath : string) (gitSpec : GitSpec) (errPrefix : ErrPrefix)
  : M (option error) :=
  let* (tmpDir, mkdtErr) := os_MkdirTemp "" "eext-keyring" in
  match mkdtErr with
  | Some mkdtErr =>
      ret (Some (Errorf "%sError '%s'creating temp dir for keyring"
                   [AStr errPrefix; AErr mkdtErr]))
  | None =>
      defer (os_RemoveAll tmpDir) (
        let keyRingPath := filepath_Join env tmpDir "eext.gpg" in
        let baseArgs :=
          ["--homedir"; tmpDir;
           "--no-default-keyring"; "--keyring"; keyRingPath] in
        let gpgCmd := "gpg" in
        (* Create keyring *)
        let createKeyRingCmdArgs := baseArgs ++ ["--fingerprint"] in
        let* err := RunSystemCmd gpgCmd createKeyRingCmdArgs in
        match err with
        | Some err =>
            ret (Some (Errorf "%sError '%s'creating keyring"
                         [AStr errPrefix; AErr err]))
        | None =>
            (* Import public key *)
            let importKeyCmdArgs := baseArgs ++ ["--import"; pubKeyPath] in
            let* err := RunSystemCmd gpgCmd importKeyCmdArgs in
            match err with
            | Some err =>
                ret (Some (Errorf "%sError '%s' importing public-key %s"
                             [AStr errPrefix; AErr err; AStr pubKeyPath]))
            | None =>
                let revision := Revision gitSpec in
                let revisionType := typeOfGitRevision gitSpec in
                let verifyRepoCmd : error + list string :=
                  if String.eqb revisionType "COMMIT" then
                    inr ["verify-commit"; "-v"; revision]
                  else if String.eqb revisionType "TAG" then
                    inr ["verify-tag"; "-v"; revision]
                  else
                    inl (Errorf
                      "%sinvalid revision %s provided, provide either a COMMIT or TAG"
                      [AStr errPrefix; AStr revision]) in
                match verifyRepoCmd with
                | inl invalid => ret (Some invalid)
                | inr verifyRepoCmd =>
                    let clonedDir := ClonedDir gitSpec in
                    let* err :=
                      RunSystemCmdInDir clonedDir "git" verifyRepoCmd in
                    match err with
                    | Some err =>
                        ret (Some (Errorf
                          "%serror during verifying git repo at %s: %s"
                          [AStr errPrefix; AStr clonedDir; AErr err]))
                    | None => ret None
                    end
                end
            end
        end)
  end.

End Util.

(** ** Observing a call *)

(** The system calls made between two worlds. *)
Definition since (w w' : World) : list Event :=
  drop (length (trace w)) (trace w').

(** The subprocess an event stands for, and how it ended. *)
Definition subprocess (ev : Event) : option (Cmd * option error) :=
  match ev with
  | EvRun c err | EvOutput c _ err => Some (c, err)
  | EvMkdirTemp _ _ _ | EvRemoveAll _ _ => None
  end.

Definition argv (c : Cmd) : string * list string := (Name c, Args c).

(** Program and arguments of the subprocesses of a history, in order. *)
Definition invocations (t : list Event) : list (string * list string) :=
  omap (fun ev => (fun p => argv p.1) <$> subprocess ev) t.

(** Some subprocess of the history ran [inv] and ended without error. *)
Definition succeeded (inv : string * list string) (t : list Event) : bool :=
  existsb
    (fun ev =>
       match subprocess ev with
       | Some (c, None) => bool_decide (argv c = inv)
       | _ => false
       end) t.

(** The arguments that point gpg at the keyring below [tmpDir]. *)
Definition baseArgs (env : Env) (tmpDir : string) : list string :=
  ["--homedir"; tmpDir;
   "--no-default-keyring"; "--keyring"; filepath_Join env tmpDir "eext.gpg"].

Definition gpg (env : Env) (tmpDir : string) (rest : list string)
  : string * list string :=
  ("gpg", baseArgs env tmpDir ++ rest).

(** The [exec.Cmd] that RunSystemCmd and RunSystemCmdInDir build. *)
Definition streamed (quiet : bool) (dir : string) (inv : string * list string)
  : Cmd :=
  {| Name := inv.1; Args := inv.2; Dir := dir;
     Stdout := Some (if negb quiet then os_Stdout else io_Discard);
     Stderr := Some os_Stderr |}.

(** In a call that ended in world [w'], the removal of the directory [d]
    was the last system call, and if it reported no error, no path at or
    below [d] exists any more. *)
Definition removed_by (env : Env) (w w' : World) (d : string) : Prop :=
  exists err,
    last (since w w') = Some (EvRemoveAll d err) /\
    (err = None -> forall p, sys_below env d p = true -> p ∉ fs w').

(** The claim C1 as the specification states it: when the call has
    returned, neither [d] nor anything below it exists. *)
Definition gone (env : Env) (w' : World) (d : string) : Prop :=
  forall p, sys_below env d p = true -> p ∉ fs w'.

(** What gpg is asked to do with the keyring below [d], in this order. *)
Definition keyring_setup (env : Env) (d pubKeyPath : string)
  : list (string * list string) :=
  [gpg env d ["--fingerprint"]; gpg env d ["--import"; pubKeyPath]].

Definition tarball_script (env : Env) (d pubKeyPath sig tarball : string)
  : list (string * list string) :=
  keyring_setup env d pubKeyPath ++ [gpg env d ["--verify"; sig; tarball]].

(** [e] is a failure returned by one of the three checks called with
    [errPrefix] in world [w]. *)
Definition failure_of (env : Env) (errPrefix : ErrPrefix) (w : World)
  (e : error) : Prop :=
  (exists rpmPath, (VerifyRpmSignature env rpmPath errPrefix w).1 = Some e) \/
  (exists tarballPath tarballSigPath pubKeyPath,
     (VerifyTarballSignature env tarballPath tarballSigPath pubKeyPath
        errPrefix w).1 = Some e) \/
  (exists pubKeyPath gitSpec,
     (VerifyGitSignature env pubKeyPath gitSpec errPrefix w).1 = Some e).

(** The claim C4 as the specification states it: the failure is the
    invalid-revision error and it is reported before any external tool is
    started. *)
Definition reported_immediately (env : Env) (w : World)
  (pubKeyPath : string) (gitSpec : GitSpec) (errPrefix : ErrPrefix) : Prop :=
  let r := VerifyGitSignature env pubKeyPath gitSpec errPrefix w in
  r.1 = Some (Errorf
           "%sinvalid revision %s provided, provide either a COMMIT or TAG"
           [AStr errPrefix; AStr (Revision gitSpec)]) /\
  invocations (since w r.2) = [].

(** ** Sample machines *)

Module Scenario.

Definition join (dir file : string) : string := dir +:+ "/" +:+ file.

(** Nesting of clean absolute names: [p] is [d] or begins with [d/]. *)
Definition nested (d p : string) : bool :=
  String.eqb p d || String.prefix (d +:+ "/") p.

(** A machine whose temporary directories are [tmp], on which a subprocess
    prints [stdout c] and ends as [ends c] says; gpg leaves its keyring
    and trust database in the home directory it is given.  Names nest as
    [nested] says and every removal goes through. *)
Definition machine (tmp : string -> error + string)
  (stdout : Cmd -> string) (ends : Cmd -> option error) : Env :=
  {| sys_MkdirTemp := fun _ _ pattern => tmp pattern;
     sys_exec := fun w c =>
       ((stdout c, ends c),
        if bool_decide (Name c = "gpg") then
          match Args c with
          | _ :: home :: _ :: _ :: keyring :: _ =>
              {[ keyring; join home "trustdb.gpg" ]} ∪ fs w
          | _ => fs w
          end
        else fs w);
     filepath_Join := join;
     sys_below := nested;
     sys_RemoveAll := fun _ _ => None |}.

Definition tmp_ok (pattern : string) : error + string :=
  inr ("/tmp/" +:+ pattern +:+ "2718281828").

Definition tmp_full (pattern : string) : error + string :=
  inl (errorString "mkdir /tmp/eext-keyring2718281828: no space left on device").

Definition prints (out : string) (c : Cmd) : string := out.

Definition all_fine (c : Cmd) : option error := None.

(** The subprocess whose arguments mention [flag] ends with [e]. *)
Definition failing (flag : string) (e : error) (c : Cmd) : option error :=
  if bool_decide (flag ∈ Args c) then Some e else None.

Definition exit2 : error := ExitError "exit status 2" 2 "fatal error".

Definition healthy : Env := machine tmp_ok (prints "") all_fine.

Definition boot : World :=
  {| fs := {[ "/tmp"; "/src/repo" ]}; GlobalVar_Quiet := false; trace := [] |}.

Definition keyring_dir : string := "/tmp/eext-keyring2718281828".

Definition tag : GitSpec :=
  {| Revision := "v1.2.0"; ClonedDir := "/src/repo" |}.

Definition long_commit : GitSpec :=
  {| Revision := "abcdef0123456789abcdef0123456789abcdef01";
     ClonedDir := "/src/repo" |}.

Definition short_commit : GitSpec :=
  {| Revision := "abcdef0"; ClonedDir := "/src/repo" |}.

Definition no_revision : GitSpec :=
  {| Revision := ""; ClonedDir := "/src/repo" |}.

End Scenario.

(** ** util.go, paths and directories *)

(** [unix.W_OK] *)
Definition W_OK : Z := 2.

(** What the operating system answers to the calls on paths.  [sys_Stat]
    gives [info.IsDir()].  The history of a world records subprocesses,
    temporary directories and removals; these queries and [os.Mkdir] leave
    no entry. *)
Record FileEnv : Type := mkFileEnv {
  sys_Stat : World -> string -> error + bool;
  sys_Access : World -> string -> Z -> option error;
  sys_Mkdir : World -> string -> N -> option error;
  os_IsExist : error -> bool;
  sys_Glob : World -> string -> error + list string
}.

Section Files.

Variable env : Env.
Variable fenv : FileEnv.

(** [os.Stat(path)], with [info.IsDir()] for the file info. *)
Definition os_Stat (path : string) : M (bool * option error) :=
  fun w =>
    match sys_Stat fenv w path with
    | inl e => ((false, Some e), w)
    | inr isDir => ((isDir, None), w)
    end.

(** [unix.Access(path, mode)] *)
Definition unix_Access (path : string) (mode : Z) : M (option error) :=
  fun w => (sys_Access fenv w path mode, w).

(** [os.Mkdir(name, perm)]: on success the directory exists. *)
Definition os_Mkdir (name : string) (perm : N) : M (option error) :=
  fun w =>
    match sys_Mkdir fenv w name perm with
    | Some e => (Some e, w)
    | None => (None, set_fs ({[ name ]} ∪ fs w) w)
    end.

(** [filepath.Glob(pattern)] *)
Definition filepath_Glob (pattern : string) : M (list string * option error) :=
  fun w =>
    match sys_Glob fenv w pattern with
    | inl e => (([], Some e), w)
    | inr matches => ((matches, None), w)
    end.

Definition CheckPath (path : string) (checkDir checkWritable : bool)
  : M (option error) :=
  let* (info, err) := os_Stat path in
  match err with
  | Some err => ret (Some err)
  | None =>
      if checkDir && negb info then
        ret (Some (Errorf "%s is not a directory" [AStr path]))
      else if checkWritable then
        let* accessErr := unix_Access path W_OK in
        match accessErr with
        | Some _ => ret (Some (Errorf "%s is not writable" [AStr path]))
        | None => ret None
        end
      else ret None
  end.

Definition MaybeCreateDir (dirPath : string) (errPrefix : ErrPrefix)
  : M (option error) :=
  let* err := os_Mkdir dirPath 509 (* 0775 *) in
  match err with
  | Some err =>
      if negb (os_IsExist fenv err) then
        ret (Some (Errorf "%s: Error '%s' creating %s"
                     [AStr errPrefix; AErr err; AStr dirPath]))
      else ret None
  | None => ret None
  end.

Definition MaybeCreateDirWithParents (dirPath : string) (errPrefix : ErrPrefix)
  : M (option error) :=
  let* err := RunSystemCmd env "mkdir" ["-p"; dirPath] in
  match err with
  | Some err =>
      ret (Some (Errorf
             "%sError '%s' trying to create directory %s with parents"
             [AStr errPrefix; AErr err; AStr dirPath]))
  | None => ret None
  end.

(** [for _, dir := range dirs] *)
Fixpoint RemoveDirs (dirs : list string) (errPrefix : ErrPrefix)
  : M (option error) :=
  match dirs with
  | [] => ret None
  | dir :: dirs' =>
      let* err := os_RemoveAll env dir in
      match err with
      | Some err =>
          ret (Some (Errorf "%sError '%s' while removing %s"
                       [AStr errPrefix; AErr err; AStr dir]))
      | None => RemoveDirs dirs' errPrefix
      end
  end.

(** The loop of CopyToDestDir, [for _, file := range filesToCopy]. *)
Fixpoint CopyToDestDir_range (filesToCopy : list string) (destDir : string)
  (errPrefix : ErrPrefix) : M (option error) :=
  match filesToCopy with
  | [] => ret None
  | file :: filesToCopy' =>
      let insideDestDir := destDir +:+ "/" in
      let* err := RunSystemCmd env "cp" ["-rf"; file; insideDestDir] in
      match err with
      | Some err =>
          ret (Some (Errorf "%scopying %s to %s errored out with '%s'"
                       [AStr errPrefix; AStr file; AStr insideDestDir;
                        AErr err]))
      | None => CopyToDestDir_range filesToCopy' destDir errPrefix
      end
  end.

Definition CopyToDestDir (srcGlob destDir : string) (errPrefix : ErrPrefix)
  : M (option error) :=
  let* err := CheckPath destDir true true in
  match err with
  | Some err =>
      ret (Some (Errorf "%sDirectory %s should be present and writable: %s"
                   [AStr errPrefix; AStr destDir; AErr err]))
  | None =>
      let* (filesToCopy, patternErr) := filepath_Glob srcGlob in
      match patternErr with
      | Some patternErr =>
          ret (Some (Errorf "%sGlob %s returned %s"
                       [AStr errPrefix; AStr srcGlob; AErr patternErr]))
      | None => CopyToDestDir_range filesToCopy destDir errPrefix
      end
  end.

End Files.

(** ** Observing the other functions *)

(** The subprocesses of a history, with how they ended. *)
Definition outcomes (t : list Event) : list (Cmd * option error) :=
  omap subprocess t.

(** No subprocess was started after one had failed. *)
Fixpoint stops_at_first_failure (l : list (Cmd * option error)) : bool :=
  match l with
  | [] => true
  | (_, None) :: l' => stops_at_first_failure l'
  | (_, Some _) :: l' => match l' with [] => true | _ :: _ => false end
  end.

(** The paths removed by a history, in order. *)
Definition removals (t : list Event) : list string :=
  omap (fun ev => match ev with EvRemoveAll p _ => Some p | _ => None end) t.

(** The copy that CopyToDestDir asks for one file. *)
Definition cp (destDir file : string) : string * list string :=
  ("cp", ["-rf"; file; destDir +:+ "/"]).

Module Disk.

(** A disk on which the paths of the world exist, all of them directories,
    writable but for those of [locked]; a pattern matches what [glob]
    says. *)
Definition disk (locked : list string) (glob : string -> error + list string)
  : FileEnv :=
  {| sys_Stat := fun w path =>
       if bool_decide (path ∈ fs w) then inr true
       else inl (errorString ("stat " +:+ path +:+ ": no such file or directory"));
     sys_Access := fun _ path _ =>
       if bool_decide (path ∈ locked) then
         Some (errorString "permission denied")
       else None;
     sys_Mkdir := fun w name _ =>
       if bool_decide (name ∈ fs w) then
         Some (errorString ("mkdir " +:+ name +:+ ": file exists"))
       else None;
     os_IsExist := fun e => Contains (Error e) "file exists";
     sys_Glob := fun _ pattern => glob pattern |}.

Definition no_match (pattern : string) : error + list string := inr [].

Definition two_rpms (pattern : string) : error + list string :=
  inr ["/src/repo/a.rpm"; "/src/repo/b.rpm"].

Definition bad_pattern (pattern : string) : error + list string :=
  inl (errorString "syntax error in pattern").

Definition plain : FileEnv := disk [] no_match.

(** The machine [m], but removing a path of [busy] fails and removes
    nothing. *)
Definition holding (busy : list string) (m : Env) : Env :=
  {| sys_MkdirTemp := sys_MkdirTemp m;
     sys_exec := sys_exec m;
     filepath_Join := filepath_Join m;
     sys_below := sys_below m;
     sys_RemoveAll := fun w path =>
       if bool_decide (path ∈ busy) then
         Some (errorString ("unlinkat " +:+ path +:+ ": device or resource busy"),
               fs w)
       else None |}.

(** The world of [Scenario.boot] with the quiet flag set. *)
Definition quiet_boot : World :=
  {| fs := {[ "/tmp"; "/src/repo" ]}; GlobalVar_Quiet := true; trace := [] |}.

End Disk.

(** * Properties *)

(** ** Strings *)

Section Strings.

Lemma prefix_append (p s : string) : String.prefix p (p +:+ s) = true.
Proof.
  induction p as [|c p IH]; simpl.
  - now destruct s.
  - rewrite IH. now destruct (ascii_dec c c).
Qed.

Lemma prefix_split (p s : string) :
  String.prefix p s = true -> exists t, s = p +:+ t.
Proof.
  revert s; induction p as [|c p IH]; intros s H.
  - now exists s.
  - destruct s as [|c' s]; simpl in H; [discriminate|].
    destruct (ascii_dec c c') as [->|]; [|discriminate].
    destruct (IH _ H) as [t ->]. now exists t.
Qed.

Lemma Contains_prefix (s sub : string) :
  String.prefix sub s = true -> Contains s sub = true.
Proof. intros H. destruct s; simpl in *; now rewrite H. Qed.

Lemma Contains_here (sub t : string) : Contains (sub +:+ t) sub = true.
Proof. apply Contains_prefix, prefix_append. Qed.

Lemma Contains_skip (c : ascii) (s sub : string) :
  Contains s sub = true -> Contains (String c s) sub = true.
Proof. intros H. cbn [Contains]. rewrite H. apply orb_true_r. Qed.

Lemma Contains_after (a s sub : string) :
  Contains s sub = true -> Contains (a +:+ s) sub = true.
Proof. intros H. induction a; simpl; [assumption|]. now apply Contains_skip. Qed.

Lemma append_assoc (a b c : string) : (a +:+ b) +:+ c = a +:+ b +:+ c.
Proof.
  induction a as [|x a IH]; [reflexivity|].
  change (String x ((a +:+ b) +:+ c) = String x (a +:+ b +:+ c)).
  now rewrite IH.
Qed.

(** [Contains] is the substring relation. *)
Lemma Contains_spec (s sub : string) :
  Contains s sub = true <-> exists a b, s = a +:+ sub +:+ b.
Proof.
  split.
  - induction s as [|c s IH]; cbn [Contains]; intros H.
    + apply orb_true_iff in H as [H|H]; [|discriminate].
      destruct (prefix_split _ _ H) as [t ->]. now exists "", t.
    + apply orb_true_iff in H as [H|H].
      * destruct (prefix_split _ _ H) as [t ->]. now exists "", t.
      * destruct (IH H) as (a & b & ->). now exists (String c a), b.
  - intros (a & b & ->). apply Contains_after, Contains_here.
Qed.

Lemma Contains_before (s t sub : string) :
  Contains s sub = true -> Contains (s +:+ t) sub = true.
Proof.
  rewrite !Contains_spec. intros (a & b & ->). exists a, (b +:+ t).
  now rewrite !append_assoc.
Qed.

End Strings.

(** Finds an operand inside a formatted message. *)
Ltac find_operand :=
  lazymatch goal with
  | |- Contains (?x +:+ _) ?x = true => apply Contains_here
  | |- Contains (String _ _) _ = true => apply Contains_skip; find_operand
  | |- Contains (_ +:+ _) _ = true =>
      first [ solve [apply Contains_before; find_operand]
            | apply Contains_after; find_operand ]
  end.

#[local] Arguments Contains : simpl never.
#[local] Arguments String.prefix : simpl never.
#[local] Arguments os_RemoveAll : simpl never.

(** ** CheckOutput *)

(** CheckOutput starts exactly one subprocess, the one it was asked for. *)
Lemma CheckOutput_invocations env name arg w :
  invocations (since w (CheckOutput env name arg w).2) = [(name, arg)].
Proof.
  unfold CheckOutput, bind, Cmd_Output, since.
  destruct (sys_exec env w _) as [[out err] fs'].
  destruct err as [[st code stderr|msg]|]; simpl;
    now rewrite drop_app_length.
Qed.

(** C9.  CheckOutput hands back the captured standard output in every case.
    When the command exits zero the error is nil.  When it ends in an
    [*exec.ExitError] the error text embeds the exit code and the captured
    standard error.  On any other failure the error text wraps the text of
    the underlying error. *)
Theorem CheckOutput_result env name arg w :
  let o := sys_exec env w (exec_Command name arg) in
  let r := (CheckOutput env name arg w).1 in
  r.1 = o.1.1 /\
  match o.1.2 with
  | None => r.2 = None
  | Some (ExitError _ code stderr) =>
      exists e, r.2 = Some e /\
        Contains (Error e) (fmt_d code) = true /\
        Contains (Error e) stderr = true
  | Some (errorString _ as raw) =>
      exists e, r.2 = Some e /\ Contains (Error e) (Error raw) = true
  end.
Proof.
  unfold CheckOutput, bind, Cmd_Output.
  destruct (sys_exec env w _) as [[out err] fs'].
  destruct err as [[st code stderr|msg]|]; simpl; split; try reflexivity.
  - eexists; split; [reflexivity|]. simpl. split; find_operand.
  - eexists; split; [reflexivity|]. simpl. find_operand.
Qed.

(** ** VerifyRpmSignature *)

(** C3, as the code has it.  With [out] and [err] what [rpm -K rpmPath]
    printed and how it ended:
    VerifyRpmSignature returns nil exactly when [err] is nil and [out]
    contains "digests signatures OK"; when [err] is nil and the marker is
    missing, the failure text carries [out]; when the command exited with an
    exit code, the failure text carries that code, and with it what the
    command wrote to its standard error. *)
Theorem VerifyRpmSignature_verdict env rpmPath errPrefix w :
  let o := sys_exec env w (exec_Command "rpm" ["-K"; rpmPath]) in
  let out := o.1.1 in
  let err := o.1.2 in
  let r := (VerifyRpmSignature env rpmPath errPrefix w).1 in
  (r = None <-> err = None /\ Contains out "digests signatures OK" = true) /\
  (err = None -> Contains out "digests signatures OK" = false ->
   exists e, r = Some e /\ Contains (Error e) out = true) /\
  (forall state code stderr, err = Some (ExitError state code stderr) ->
   exists e, r = Some e /\
     Contains (Error e) (fmt_d code) = true /\
     Contains (Error e) stderr = true).
Proof.
  unfold VerifyRpmSignature, CheckOutput, bind, Cmd_Output.
  destruct (sys_exec env w _) as [[out err] fs'].
  destruct err as [[st code stderr|msg]|]; simpl.
  - split; [|split]; [split; [discriminate|intros [? _]; discriminate]
                     |discriminate|].
    intros ? ? ? [= <- <- <-]. eexists; split; [reflexivity|].
    simpl. split; find_operand.
  - split; [|split]; [split; [discriminate|intros [? _]; discriminate]
                     |discriminate|discriminate].
  - destruct (Contains out "digests signatures OK") eqn:Hmark; simpl.
    + split; [|split]; [tauto|discriminate|discriminate].
    + split; [|split]; [split; [discriminate|intros [_ ?]; discriminate]
                       | |discriminate].
      intros _ _. eexists; split; [reflexivity|]. simpl. find_operand.
Qed.

(** C3 as stated fails.  When rpm exits with an exit code, the failure
    carries the exit code and what rpm wrote to its standard error, but not
    the captured output, although that output lacks the marker. *)
Lemma nonzero_exit_drops_captured_output :
  let out := "rpm-4.0.pkg: digests SIGNATURES NOT OK" in
  let m := Scenario.machine Scenario.tmp_ok (Scenario.prints out)
             (Scenario.failing "-K" Scenario.exit2) in
  let r := (VerifyRpmSignature m "rpm-4.0.pkg" "eext: " Scenario.boot).1 in
  (sys_exec m Scenario.boot (exec_Command "rpm" ["-K"; "rpm-4.0.pkg"])).1
    = (out, Some Scenario.exit2) /\
  Contains out "digests signatures OK" = false /\
  exists e, r = Some e /\ Contains (Error e) out = false.
Proof.
  cbv zeta. split; [vm_compute; reflexivity|].
  split; [vm_compute; reflexivity|].
  eexists. split; vm_compute; reflexivity.
Qed.

(** ** Histories *)

Section Steps.

Variable env : Env.

Lemma since_app (w w' : World) (t : list Event) :
  trace w' = trace w ++ t -> since w w' = t.
Proof. unfold since. intros ->. apply drop_app_length. Qed.

Lemma os_MkdirTemp_step dir pattern w :
  let r := os_MkdirTemp env dir pattern w in
  let res := sys_MkdirTemp env w dir pattern in
  trace r.2 = trace w ++ [EvMkdirTemp dir pattern res] /\
  GlobalVar_Quiet r.2 = GlobalVar_Quiet w /\
  match res with
  | inl e => r.1 = ("", Some e)
  | inr d => r.1 = (d, None)
  end.
Proof.
  unfold os_MkdirTemp. cbv zeta.
  now destruct (sys_MkdirTemp env w dir pattern).
Qed.

Lemma os_RemoveAll_step path w :
  let r := os_RemoveAll env path w in
  trace r.2 = trace w ++ [EvRemoveAll path r.1] /\
  GlobalVar_Quiet r.2 = GlobalVar_Quiet w.
Proof.
  unfold os_RemoveAll. cbv zeta. destruct (String.eqb path ""); [now split|].
  now destruct (sys_RemoveAll env w path) as [[e kept]|].
Qed.

(** What a removal does to the file system: it creates nothing, it leaves
    alone what is not at or below the path, and when it reports no error
    for a path that is not empty, nothing at or below the path is left. *)
Lemma os_RemoveAll_effect path w :
  let r := os_RemoveAll env path w in
  fs r.2 ⊆ fs w /\
  (forall p, p ∈ fs w -> sys_below env path p = false -> p ∈ fs r.2) /\
  (r.1 = None -> path <> "" ->
   forall p, sys_below env path p = true -> p ∉ fs r.2).
Proof.
  unfold os_RemoveAll. cbv zeta.
  destruct (String.eqb path "") eqn:Hempty.
  - apply String.eqb_eq in Hempty. simpl. repeat split; try done.
  - destruct (sys_RemoveAll env w path) as [[e kept]|]; simpl.
    + split; [intros p; rewrite elem_of_filter; tauto|].
      split; [|discriminate].
      intros p Hp Hout. apply elem_of_filter. tauto.
    + split; [intros p; rewrite elem_of_filter; tauto|].
      split.
      * intros p Hp Hout. apply elem_of_filter. tauto.
      * intros _ _ p Hin. rewrite elem_of_filter. intros [Hout _]. congruence.
Qed.

(** The empty path is accepted and nothing is removed. *)
Lemma os_RemoveAll_empty w :
  os_RemoveAll env "" w = (None, log (EvRemoveAll "" None) w).
Proof. reflexivity. Qed.

Lemma RunSystemCmd_step name arg w :
  let r := RunSystemCmd env name arg w in
  trace r.2 =
    trace w ++ [EvRun (streamed (GlobalVar_Quiet w) "" (name, arg)) r.1] /\
  GlobalVar_Quiet r.2 = GlobalVar_Quiet w.
Proof.
  unfold RunSystemCmd, bind, get_Quiet, Cmd_Run, ret. cbv zeta. simpl.
  now destruct (sys_exec env w _) as [[out err] fs'].
Qed.

Lemma RunSystemCmdInDir_step dir name arg w :
  let r := RunSystemCmdInDir env dir name arg w in
  trace r.2 =
    trace w ++ [EvRun (streamed (GlobalVar_Quiet w) dir (name, arg)) r.1] /\
  GlobalVar_Quiet r.2 = GlobalVar_Quiet w.
Proof.
  unfold RunSystemCmdInDir, bind, get_Quiet, Cmd_Run, ret. cbv zeta. simpl.
  now destruct (sys_exec env w _) as [[out err] fs'].
Qed.

(** CheckOutput returns an error exactly when the subprocess ended with
    one; the error it returns is built by [fmt.Errorf]. *)
Lemma CheckOutput_step name arg w :
  let r := CheckOutput env name arg w in
  exists raw,
    trace r.2 = trace w ++ [EvOutput (exec_Command name arg) r.1.1 raw] /\
    GlobalVar_Quiet r.2 = GlobalVar_Quiet w /\
    match raw with
    | None => r.1.2 = None
    | Some _ => exists msg, r.1.2 = Some (errorString msg)
    end.
Proof.
  unfold CheckOutput, bind, Cmd_Output, ret. cbv zeta.
  destruct (sys_exec env w _) as [[out err] fs'].
  exists err. destruct err as [[st code stderr|msg]|]; simpl;
    repeat split; eexists; reflexivity.
Qed.

End Steps.

(** Runs the next call of the goal and records what it did to the history. *)
Ltac step_with lem f :=
  let Ht := fresh "Ht" in
  let Hq := fresh "Hq" in
  pose proof lem as [Ht Hq]; cbv zeta in Ht, Hq;
  destruct f as [[?e|] ?w]; simpl in Ht, Hq |- *.

Ltac step_run :=
  match goal with
  | |- context [RunSystemCmd ?E ?N ?A ?W] =>
      step_with (RunSystemCmd_step E N A W) (RunSystemCmd E N A W)
  | |- context [RunSystemCmdInDir ?E ?D ?N ?A ?W] =>
      step_with (RunSystemCmdInDir_step E D N A W) (RunSystemCmdInDir E D N A W)
  end.

Ltac step_mkdir :=
  match goal with
  | |- context [os_MkdirTemp ?E ?D ?P ?W] =>
      let Ht := fresh "Ht" in
      let Hq := fresh "Hq" in
      let Hr := fresh "Hr" in
      pose proof (os_MkdirTemp_step E D P W) as (Ht & Hq & Hr);
      cbv zeta in Ht, Hq, Hr;
      destruct (os_MkdirTemp E D P W) as [[?tmpDir ?mkdtErr] ?w];
      destruct (sys_MkdirTemp E W D P) as [?e|?d];
      simpl in Ht, Hq, Hr; injection Hr as -> ->; simpl
  end.

Ltac step_remove :=
  match goal with
  | |- context [os_RemoveAll ?E ?P ?W] =>
      let Ht := fresh "Ht" in
      let Hq := fresh "Hq" in
      let Hgone := fresh "Hgone" in
      pose proof (os_RemoveAll_step E P W) as [Ht Hq];
      pose proof (os_RemoveAll_effect E P W) as (_ & _ & Hgone);
      cbv zeta in Ht, Hq, Hgone;
      destruct (os_RemoveAll E P W) as [?rm ?w]; simpl in Ht, Hq, Hgone |- *
  end.

(** Closes a goal about the history of a finished call. *)
Ltac history :=
  apply since_app; simpl;
  repeat match goal with
    | H : trace ?w = _ |- context [trace ?w] => rewrite H; clear H
    end;
  repeat match goal with
    | H : GlobalVar_Quiet ?w = _ |- _ => rewrite ?H; clear H
    end;
  rewrite <- ?app_assoc; reflexivity.

(** ** VerifyGitSignature *)

(** The four ways through VerifyGitSignature: no temporary directory, no
    keyring, no import, invalid revision.  In each, what was returned and
    which system calls were made. *)
Lemma VerifyGitSignature_paths env pubKeyPath gitSpec errPrefix w :
  let r := VerifyGitSignature env pubKeyPath gitSpec errPrefix w in
  let mk := EvMkdirTemp "" "eext-keyring" in
  let run inv := EvRun (streamed (GlobalVar_Quiet w) "" inv) in
  (exists e,
     sys_MkdirTemp env w "" "eext-keyring" = inl e /\
     since w r.2 = [mk (inl e)] /\
     r.1 = Some (Errorf "%sError '%s'creating temp dir for keyring"
                   [AStr errPrefix; AErr e])) \/
  (exists d rm,
     sys_MkdirTemp env w "" "eext-keyring" = inr d /\
     (rm = None -> d <> "" ->
      forall p, sys_below env d p = true -> p ∉ fs r.2) /\
     ((exists e,
         since w r.2 =
           [mk (inr d); run (gpg env d ["--fingerprint"]) (Some e);
            EvRemoveAll d rm] /\
         r.1 = Some (Errorf "%sError '%s'creating keyring"
                       [AStr errPrefix; AErr e])) \/
      (exists e,
         since w r.2 =
           [mk (inr d); run (gpg env d ["--fingerprint"]) None;
            run (gpg env d ["--import"; pubKeyPath]) (Some e);
            EvRemoveAll d rm] /\
         r.1 = Some (Errorf "%sError '%s' importing public-key %s"
                       [AStr errPrefix; AErr e; AStr pubKeyPath])) \/
      (since w r.2 =
         [mk (inr d); run (gpg env d ["--fingerprint"]) None;
          run (gpg env d ["--import"; pubKeyPath]) None;
          EvRemoveAll d rm] /\
       r.1 = Some (Errorf
                "%sinvalid revision %s provided, provide either a COMMIT or TAG"
                [AStr errPrefix; AStr (Revision gitSpec)])))).
Proof.
  cbv zeta. unfold VerifyGitSignature, bind, defer, ret.
  step_mkdir.
  - left. exists e. repeat split. history.
  - step_run.
    + step_remove. right. exists d, rm. repeat split; [exact Hgone|].
      left. exists e. split; [history|reflexivity].
    + step_run.
      * step_remove. right. exists d, rm. repeat split; [exact Hgone|].
        right; left. exists e. split; [history|reflexivity].
      * step_remove. right. exists d, rm. repeat split; [exact Hgone|].
        right; right. split; [history|reflexivity].
Qed.

(** ** VerifyTarballSignature *)

Ltac step_output :=
  match goal with
  | |- context [CheckOutput ?E ?N ?A ?W] =>
      let H := fresh "H" in
      pose proof (CheckOutput_step E N A W) as H; cbv zeta in H;
      destruct (CheckOutput E N A W) as [[?output ?err] ?w];
      simpl in H;
      destruct H as ([?raw|] & ?Ht & ?Hq & H);
      [ destruct H as [?msg ->] | rewrite H; clear H ]; simpl
  end.

(** The five ways through VerifyTarballSignature: no temporary directory,
    no keyring, no import, verification failed, verified. *)
Lemma VerifyTarballSignature_paths
  env tarballPath tarballSigPath pubKeyPath errPrefix w :
  let r :=
    VerifyTarballSignature env tarballPath tarballSigPath pubKeyPath errPrefix w in
  let mk := EvMkdirTemp "" "eext-keyring" in
  let run inv := EvRun (streamed (GlobalVar_Quiet w) "" inv) in
  let verify d :=
    EvOutput (exec_Command "gpg"
                (baseArgs env d ++ ["--verify"; tarballSigPath; tarballPath])) in
  (exists e,
     sys_MkdirTemp env w "" "eext-keyring" = inl e /\
     since w r.2 = [mk (inl e)] /\
     r.1 = Some (Errorf "%sError '%s'creating temp dir for keyring"
                   [AStr errPrefix; AErr e])) \/
  (exists d rm,
     sys_MkdirTemp env w "" "eext-keyring" = inr d /\
     (rm = None -> d <> "" ->
      forall p, sys_below env d p = true -> p ∉ fs r.2) /\
     ((exists e,
         since w r.2 =
           [mk (inr d); run (gpg env d ["--fingerprint"]) (Some e);
            EvRemoveAll d rm] /\
         r.1 = Some (Errorf "%sError '%s'creating keyring"
                       [AStr errPrefix; AErr e])) \/
      (exists e,
         since w r.2 =
           [mk (inr d); run (gpg env d ["--fingerprint"]) None;
            run (gpg env d ["--import"; pubKeyPath]) (Some e);
            EvRemoveAll d rm] /\
         r.1 = Some (Errorf "%sError '%s' importing public-key %s"
                       [AStr errPrefix; AErr e; AStr pubKeyPath])) \/
      (exists out raw msg,
         since w r.2 =
           [mk (inr d); run (gpg env d ["--fingerprint"]) None;
            run (gpg env d ["--import"; pubKeyPath]) None;
            verify d out (Some raw);
            EvRemoveAll d rm] /\
         r.1 = Some (Errorf
                  ("%sError verifying signature %s for tarball %s with pubkey %s."
                   +:+ nl +:+ "gpg --verify err: %sstdout:%s")
                  [AStr errPrefix; AStr tarballSigPath; AStr tarballPath;
                   AStr pubKeyPath; AErr (errorString msg); AStr out])) \/
      (exists out,
         since w r.2 =
           [mk (inr d); run (gpg env d ["--fingerprint"]) None;
            run (gpg env d ["--import"; pubKeyPath]) None;
            verify d out None;
            EvRemoveAll d rm] /\
         r.1 = None))).
Proof.
  cbv zeta. unfold VerifyTarballSignature, bind, defer, ret.
  step_mkdir.
  - left. exists e. repeat split. history.
  - step_run.
    + step_remove. right. exists d, rm. repeat split; [exact Hgone|].
      left. exists e. split; [history|reflexivity].
    + step_run.
      * step_remove. right. exists d, rm. repeat split; [exact Hgone|].
        right; left. exists e. split; [history|reflexivity].
      * step_output.
        -- step_remove. right. exists d, rm. repeat split; [exact Hgone|].
           right; right; left. exists output, raw, msg.
           split; [history|reflexivity].
        -- step_remove. right. exists d, rm. repeat split; [exact Hgone|].
           right; right; right. exists output. split; [history|reflexivity].
Qed.

(** ** The ephemeral keyring *)

(** C1, as the code has it.  When the temporary keyring directory [d] has
    been created, VerifyTarballSignature and VerifyGitSignature call
    [os.RemoveAll(d)] as their last system call, whatever gpg did and on
    every exit path; when that removal reports no error, neither [d] nor
    anything below it exists once the call has returned.  The result of the
    removal is dropped. *)
Theorem keyring_directory_removed env w d :
  sys_MkdirTemp env w "" "eext-keyring" = inr d ->
  d <> "" ->
  (forall tarballPath tarballSigPath pubKeyPath errPrefix,
     removed_by env w
       (VerifyTarballSignature env tarballPath tarballSigPath pubKeyPath
          errPrefix w).2 d) /\
  (forall pubKeyPath gitSpec errPrefix,
     removed_by env w
       (VerifyGitSignature env pubKeyPath gitSpec errPrefix w).2 d).
Proof.
  intros Hmk Hd. split.
  - intros tarballPath tarballSigPath pubKeyPath errPrefix.
    destruct (VerifyTarballSignature_paths env tarballPath tarballSigPath
                pubKeyPath errPrefix w)
      as [(e & Hmk' & _)
         |(d' & rm & Hmk' & Hgone & [(e & Hs & _)|[(e & Hs & _)
            |[(out & raw & msg & Hs & _)|(out & Hs & _)]]])];
      rewrite Hmk in Hmk'; try discriminate Hmk';
      injection Hmk' as <-; exists rm;
      (split; [rewrite Hs; reflexivity|]);
      intros Hrm; apply Hgone; assumption.
  - intros pubKeyPath gitSpec errPrefix.
    destruct (VerifyGitSignature_paths env pubKeyPath gitSpec errPrefix w)
      as [(e & Hmk' & _)
         |(d' & rm & Hmk' & Hgone & [(e & Hs & _)|[(e & Hs & _)|(Hs & _)]])];
      rewrite Hmk in Hmk'; try discriminate Hmk';
      injection Hmk' as <-; exists rm;
      (split; [rewrite Hs; reflexivity|]);
      intros Hrm; apply Hgone; assumption.
Qed.

(** C1 as stated fails.  On a machine that cannot remove the keyring
    directory, VerifyTarballSignature verifies the signature and returns
    nil, and the directory is still there. *)
Lemma keyring_directory_left_behind :
  let m := Disk.holding [Scenario.keyring_dir] Scenario.healthy in
  let r := VerifyTarballSignature m "pkg.tar.gz" "pkg.tar.gz.sig" "key.pub"
             "eext: " Scenario.boot in
  sys_MkdirTemp m Scenario.boot "" "eext-keyring" = inr Scenario.keyring_dir /\
  r.1 = None /\
  ~ gone m r.2 Scenario.keyring_dir.
Proof.
  cbv zeta. split; [reflexivity|]. split; [vm_compute; reflexivity|].
  intros H. apply (H Scenario.keyring_dir); [vm_compute; reflexivity|].
  apply elem_of_elements, list_elem_of_In. vm_compute. tauto.
Qed.

(** The removal has no part in the result: on a machine that differs only
    in that removals of the paths of [busy] fail, both checks return what
    they return on the machine itself. *)
Lemma failed_removal_is_not_reported env busy w :
  (forall tarballPath tarballSigPath pubKeyPath errPrefix,
     (VerifyTarballSignature (Disk.holding busy env) tarballPath
        tarballSigPath pubKeyPath errPrefix w).1 =
     (VerifyTarballSignature env tarballPath tarballSigPath pubKeyPath
        errPrefix w).1) /\
  (forall pubKeyPath gitSpec errPrefix,
     (VerifyGitSignature (Disk.holding busy env) pubKeyPath gitSpec
        errPrefix w).1 =
     (VerifyGitSignature env pubKeyPath gitSpec errPrefix w).1).
Proof.
  split; [intros ? ? ? ?|intros ? ? ?].
  - unfold VerifyTarballSignature, bind, os_MkdirTemp. simpl.
    destruct (sys_MkdirTemp env w "" "eext-keyring") as [e|d];
      [reflexivity|].
    unfold defer.
    match goal with
    | |- (let (a, w') := ?b in _).1 = (let (a0, w'0) := ?b' in _).1 =>
        change b with b'; destruct b'
    end.
    reflexivity.
  - unfold VerifyGitSignature, bind, os_MkdirTemp. simpl.
    destruct (sys_MkdirTemp env w "" "eext-keyring") as [e|d];
      [reflexivity|].
    unfold defer.
    match goal with
    | |- (let (a, w') := ?b in _).1 = (let (a0, w'0) := ?b' in _).1 =>
        change b with b'; destruct b'
    end.
    reflexivity.
Qed.

(** C2.  The subprocesses started by VerifyTarballSignature are an initial
    segment of: gpg --fingerprint, gpg --import pubKeyPath, gpg --verify
    sig tarball; those started by VerifyGitSignature are an initial segment
    of the first two.  Each of them is gpg called with [--homedir d
    --no-default-keyring --keyring d/eext.gpg] in front, [d] being the
    temporary directory of this call, and the one key imported is the
    caller's.  Without temporary directory nothing is started. *)
Theorem gpg_only_on_ephemeral_keyring
  env w tarballPath tarballSigPath pubKeyPath gitSpec errPrefix :
  let wt := (VerifyTarballSignature env tarballPath tarballSigPath pubKeyPath
               errPrefix w).2 in
  let wg := (VerifyGitSignature env pubKeyPath gitSpec errPrefix w).2 in
  match sys_MkdirTemp env w "" "eext-keyring" with
  | inl _ =>
      invocations (since w wt) = [] /\ invocations (since w wg) = []
  | inr d =>
      (exists k, invocations (since w wt) =
         take k (tarball_script env d pubKeyPath tarballSigPath tarballPath)) /\
      (exists k, invocations (since w wg) = take k (keyring_setup env d pubKeyPath))
  end.
Proof.
  cbv zeta.
  destruct (VerifyTarballSignature_paths env tarballPath tarballSigPath
              pubKeyPath errPrefix w)
    as [(e & Hmk & -> & _)
       |(d & rm & Hmk & Hgone & [(e & -> & _)|[(e & -> & _)
          |[(out & raw & msg & -> & _)|(out & -> & _)]]])];
  (destruct (VerifyGitSignature_paths env pubKeyPath gitSpec errPrefix w)
    as [(e' & Hmk' & -> & _)
       |(d' & rm' & Hmk' & Hgone' & [(e' & -> & _)|[(e' & -> & _)|(-> & _)]])]);
  rewrite Hmk in Hmk' |- *; simplify_eq; split; try reflexivity;
  first [ now exists 1 | now exists 2 | now exists 3 ].
Qed.

(** ** Error prefixes *)

Lemma Errorf_prefix (errPrefix format : string) (a : list Arg) :
  String.prefix errPrefix
    (Error (Errorf (String "%" (String "s" format)) (AStr errPrefix :: a))) = true.
Proof. apply prefix_append. Qed.

(** C8.  Every failure returned by VerifyRpmSignature,
    VerifyTarballSignature or VerifyGitSignature has a text that begins
    with the caller's ErrPrefix. *)
Theorem failure_begins_with_ErrPrefix env errPrefix w e :
  failure_of env errPrefix w e ->
  String.prefix errPrefix (Error e) = true.
Proof.
  intros [(rpmPath & H)|[(tarballPath & tarballSigPath & pubKeyPath & H)
                        |(pubKeyPath & gitSpec & H)]].
  - revert H. unfold VerifyRpmSignature, bind, ret.
    destruct (CheckOutput env "rpm" _ w) as [[output [err|]] w'].
    + intros [= <-]. apply Errorf_prefix.
    + destruct (negb _); intros [= <-]. apply Errorf_prefix.
  - destruct (VerifyTarballSignature_paths env tarballPath tarballSigPath
                pubKeyPath errPrefix w)
      as [(e0 & _ & _ & Hr)
         |(d & rm & _ & _ & [(e0 & _ & Hr)|[(e0 & _ & Hr)
            |[(out & raw & msg & _ & Hr)|(out & _ & Hr)]]])];
      rewrite Hr in H; simplify_eq; apply Errorf_prefix.
  - destruct (VerifyGitSignature_paths env pubKeyPath gitSpec errPrefix w)
      as [(e0 & _ & _ & Hr)
         |(d & rm & _ & _ & [(e0 & _ & Hr)|[(e0 & _ & Hr)|(_ & Hr)]])];
      rewrite Hr in H; simplify_eq; apply Errorf_prefix.
Qed.

(** ** Invalid revisions *)

Lemma succeeded_true inv t :
  succeeded inv t = true ->
  exists ev c, ev ∈ t /\ subprocess ev = Some (c, None) /\ argv c = inv.
Proof.
  unfold succeeded. rewrite existsb_exists. intros (ev & Hin & Hev).
  exists ev. destruct (subprocess ev) as [[c [e|]]|]; try discriminate.
  exists c. apply bool_decide_eq_true in Hev. now rewrite list_elem_of_In.
Qed.

(** Refutes that a subprocess succeeded in a history that is written out. *)
Ltac not_succeeded H :=
  let Hsub := fresh "Hsub" in
  let Harg := fresh "Harg" in
  apply succeeded_true in H as (?ev & ?c & H & Hsub & Harg);
  repeat (apply elem_of_cons in H as [->|H]);
  [ .. | solve [apply elem_of_nil in H; destruct H] ];
  simpl in Hsub; try discriminate Hsub;
  injection Hsub as <-;
  cbv [argv gpg streamed baseArgs fst snd Name Args app] in Harg;
  congruence.

(** No program of a history that is written out is git. *)
Ltac no_git :=
  let inv := fresh "inv" in
  let Hin := fresh "Hin" in
  intros inv Hin; simpl in Hin;
  repeat (apply elem_of_cons in Hin as [->|Hin]);
  [ discriminate .. | solve [apply elem_of_nil in Hin; destruct Hin] ].

(** C4, as the code has it.  For a GitSpec whose revision is classified as
    neither COMMIT nor TAG, once the temporary directory [d] exists and gpg
    has created the keyring and imported the key, VerifyGitSignature returns
    the invalid-revision failure, which names the revision; the two gpg
    calls that set the keyring up are the only subprocesses of the call, so
    no verification subprocess is run. *)
Theorem invalid_revision_after_keyring_setup
  env w pubKeyPath gitSpec errPrefix d :
  typeOfGitRevision gitSpec <> "COMMIT" ->
  typeOfGitRevision gitSpec <> "TAG" ->
  sys_MkdirTemp env w "" "eext-keyring" = inr d ->
  let r := VerifyGitSignature env pubKeyPath gitSpec errPrefix w in
  succeeded (gpg env d ["--fingerprint"]) (since w r.2) = true ->
  succeeded (gpg env d ["--import"; pubKeyPath]) (since w r.2) = true ->
  r.1 = Some (Errorf
           "%sinvalid revision %s provided, provide either a COMMIT or TAG"
           [AStr errPrefix; AStr (Revision gitSpec)]) /\
  (forall e, r.1 = Some e -> Contains (Error e) (Revision gitSpec) = true) /\
  invocations (since w r.2) = keyring_setup env d pubKeyPath.
Proof.
  intros _ _ Hmk r Hcreate Himport. subst r.
  destruct (VerifyGitSignature_paths env pubKeyPath gitSpec errPrefix w)
    as [(e & Hmk' & Hs & Hr)
       |(d' & rm' & Hmk' & Hgone' & [(e & Hs & Hr)|[(e & Hs & Hr)|(Hs & Hr)]])];
    rewrite Hmk in Hmk'; simplify_eq; rewrite Hs in *.
  - not_succeeded Hcreate.
  - not_succeeded Himport.
  - rewrite Hr. repeat split.
    intros e [= <-]. simpl. find_operand.
Qed.

(** C10.  typeOfGitRevision and GetVersionFromRevision return the empty
    string for every GitSpec.  Hence VerifyGitSignature never starts git,
    and whenever gpg has created the keyring and imported the key it returns
    the invalid-revision error. *)
Theorem revision_helpers_return_empty env w pubKeyPath gitSpec errPrefix :
  let r := VerifyGitSignature env pubKeyPath gitSpec errPrefix w in
  typeOfGitRevision gitSpec = "" /\
  GetVersionFromRevision gitSpec = "" /\
  (forall inv, inv ∈ invocations (since w r.2) -> inv.1 <> "git") /\
  (forall d,
     succeeded (gpg env d ["--fingerprint"]) (since w r.2) = true ->
     succeeded (gpg env d ["--import"; pubKeyPath]) (since w r.2) = true ->
     r.1 = Some (Errorf
              "%sinvalid revision %s provided, provide either a COMMIT or TAG"
              [AStr errPrefix; AStr (Revision gitSpec)])).
Proof.
  cbv zeta. split; [reflexivity|]. split; [reflexivity|].
  destruct (VerifyGitSignature_paths env pubKeyPath gitSpec errPrefix w)
    as [(e & Hmk & Hs & Hr)
       |(d' & rm & Hmk & Hgone & [(e & Hs & Hr)|[(e & Hs & Hr)|(Hs & Hr)]])];
    rewrite Hs; clear Hs; (split; [no_git|intros d Hcreate Himport]).
  - not_succeeded Hcreate.
  - not_succeeded Hcreate.
  - not_succeeded Himport.
  - exact Hr.
Qed.

(** C4 as stated fails.  On a healthy machine the failure comes after gpg
    has run twice; on a machine where gpg cannot create the keyring it is
    another failure.  Either way it is not reported immediately. *)
Lemma invalid_revision_not_reported_immediately :
  typeOfGitRevision Scenario.tag <> "COMMIT" /\
  typeOfGitRevision Scenario.tag <> "TAG" /\
  ~ reported_immediately Scenario.healthy Scenario.boot
      "key.pub" Scenario.tag "eext: " /\
  ~ reported_immediately
      (Scenario.machine Scenario.tmp_ok (Scenario.prints "")
         (Scenario.failing "--fingerprint" Scenario.exit2))
      Scenario.boot "key.pub" Scenario.tag "eext: ".
Proof.
  repeat split; try discriminate.
  - intros [_ H]. vm_compute in H. discriminate.
  - intros [H _]. vm_compute in H. discriminate.
Qed.

(** ** The revision helpers *)

(** Whatever the revision, the version is not the revision, unless the
    revision is empty. *)
Lemma GetVersionFromRevision_drops_revision (spec : GitSpec) :
  Revision spec <> "" -> GetVersionFromRevision spec <> Revision spec.
Proof. intros H E. apply H. symmetry. exact E. Qed.

(** Whatever positive length is taken as the canonical short length, some
    commit hash that is not longer is not returned unchanged. *)
Lemma short_hash_not_returned (n : nat) :
  0 < n ->
  exists spec,
    String.length (Revision spec) <= n /\
    GetVersionFromRevision spec <> Revision spec.
Proof.
  intros Hn. exists {| Revision := "a"; ClonedDir := "." |}.
  split; [simpl; lia | discriminate].
Qed.

(** C5.  For the tag v1.2.0 the code does not classify the revision as a
    tag and returns the empty string, not the tag name. *)
Theorem version_of_tag_is_empty :
  typeOfGitRevision Scenario.tag = "" /\
  GetVersionFromRevision Scenario.tag = "" /\
  GetVersionFromRevision Scenario.tag <> Revision Scenario.tag.
Proof. repeat split. discriminate. Qed.

(** C6.  For a full 40 digit commit hash and for a 7 digit one the code
    returns the empty string: not a prefix of positive length of the first,
    and not the second. *)
Theorem version_of_commit_is_empty :
  GetVersionFromRevision Scenario.long_commit = "" /\
  String.length (GetVersionFromRevision Scenario.long_commit) = 0 /\
  GetVersionFromRevision Scenario.long_commit <> "abcdef0123" /\
  GetVersionFromRevision Scenario.short_commit = "" /\
  GetVersionFromRevision Scenario.short_commit <> Revision Scenario.short_commit.
Proof. repeat split; discriminate. Qed.

(** C7.  For the empty revision the code returns the empty string as the
    version, and no error. *)
Theorem version_of_empty_revision_is_empty :
  Revision Scenario.no_revision = "" /\
  typeOfGitRevision Scenario.no_revision = "" /\
  GetVersionFromRevision Scenario.no_revision = "".
Proof. repeat split. Qed.

(** ** The theorems at work on the sample machines *)

Lemma keyring_directory_removed_witness :
  sys_MkdirTemp Scenario.healthy Scenario.boot "" "eext-keyring"
    = inr Scenario.keyring_dir /\
  removed_by Scenario.healthy Scenario.boot
    (VerifyTarballSignature Scenario.healthy
       "pkg.tar.gz" "pkg.tar.gz.sig" "key.pub" "eext: " Scenario.boot).2
    Scenario.keyring_dir /\
  removed_by
    (Scenario.machine Scenario.tmp_ok (Scenario.prints "")
       (Scenario.failing "--import" Scenario.exit2))
    Scenario.boot
    (VerifyGitSignature
       (Scenario.machine Scenario.tmp_ok (Scenario.prints "")
          (Scenario.failing "--import" Scenario.exit2))
       "key.pub" Scenario.tag "eext: " Scenario.boot).2
    Scenario.keyring_dir.
Proof.
  assert (Hd : Scenario.keyring_dir <> "") by discriminate.
  split; [reflexivity|]. split.
  - exact (proj1 (keyring_directory_removed Scenario.healthy Scenario.boot
                    Scenario.keyring_dir eq_refl Hd) _ _ _ _).
  - exact (proj2 (keyring_directory_removed
                    (Scenario.machine Scenario.tmp_ok (Scenario.prints "")
                       (Scenario.failing "--import" Scenario.exit2))
                    Scenario.boot Scenario.keyring_dir eq_refl Hd) _ _ _).
Defined.

(** On the healthy machine gpg leaves files in the keyring directory; none
    of them is left when VerifyTarballSignature has returned. *)
Example keyring_files_do_not_outlive_the_call :
  let w1 := (RunSystemCmd Scenario.healthy "gpg"
               (baseArgs Scenario.healthy Scenario.keyring_dir ++ ["--fingerprint"])
               Scenario.boot).2 in
  let w' := (VerifyTarballSignature Scenario.healthy
               "pkg.tar.gz" "pkg.tar.gz.sig" "key.pub" "eext: " Scenario.boot).2 in
  elements (fs w1) =
    ["/src/repo"; "/tmp/eext-keyring2718281828/eext.gpg";
     "/tmp/eext-keyring2718281828/trustdb.gpg"; "/tmp"] /\
  elements (fs w') = ["/src/repo"; "/tmp"].
Proof. split; vm_compute; reflexivity. Qed.

Lemma failure_begins_with_ErrPrefix_witness :
  exists e,
    (VerifyGitSignature Scenario.healthy "key.pub" Scenario.tag "eext: "
       Scenario.boot).1 = Some e /\
    String.prefix "eext: " (Error e) = true.
Proof.
  eexists. split; [vm_compute; reflexivity|].
  apply (failure_begins_with_ErrPrefix Scenario.healthy "eext: " Scenario.boot).
  right; right. exists "key.pub", Scenario.tag. vm_compute. reflexivity.
Defined.

Lemma invalid_revision_after_keyring_setup_witness :
  let r := VerifyGitSignature Scenario.healthy "key.pub" Scenario.tag "eext: "
             Scenario.boot in
  r.1 = Some (errorString
    "eext: invalid revision v1.2.0 provided, provide either a COMMIT or TAG") /\
  invocations (since Scenario.boot r.2) =
    keyring_setup Scenario.healthy Scenario.keyring_dir "key.pub".
Proof.
  destruct (invalid_revision_after_keyring_setup Scenario.healthy
              Scenario.boot "key.pub" Scenario.tag "eext: "
              Scenario.keyring_dir)
    as (Hr & _ & Hs);
    [discriminate | discriminate | reflexivity
    | vm_compute; reflexivity | vm_compute; reflexivity | ].
  split; [exact Hr | exact Hs].
Defined.

Lemma revision_helpers_return_empty_witness :
  (VerifyGitSignature Scenario.healthy "key.pub" Scenario.tag "eext: "
     Scenario.boot).1 =
  Some (errorString
    "eext: invalid revision v1.2.0 provided, provide either a COMMIT or TAG").
Proof.
  destruct (revision_helpers_return_empty Scenario.healthy Scenario.boot
              "key.pub" Scenario.tag "eext: ") as (_ & _ & _ & H).
  apply (H Scenario.keyring_dir); vm_compute; reflexivity.
Defined.

Lemma VerifyRpmSignature_verdict_witness :
  let rpm out ends :=
    (VerifyRpmSignature (Scenario.machine Scenario.tmp_ok out ends)
       "rpm-4.0.pkg" "eext: " Scenario.boot).1 in
  rpm (Scenario.prints "rpm-4.0.pkg: digests signatures OK") Scenario.all_fine
    = None /\
  (exists e,
     rpm (Scenario.prints "rpm-4.0.pkg: digests OK") Scenario.all_fine = Some e /\
     Contains (Error e) "rpm-4.0.pkg: digests OK" = true) /\
  (exists e,
     rpm (Scenario.prints "") (Scenario.failing "-K" Scenario.exit2) = Some e /\
     Contains (Error e) (fmt_d 2) = true /\
     Contains (Error e) "fatal error" = true).
Proof.
  cbv zeta. split; [|split].
  - destruct (VerifyRpmSignature_verdict
                (Scenario.machine Scenario.tmp_ok
                   (Scenario.prints "rpm-4.0.pkg: digests signatures OK")
                   Scenario.all_fine) "rpm-4.0.pkg" "eext: " Scenario.boot)
      as ([_ H] & _ & _).
    apply H. split; vm_compute; reflexivity.
  - destruct (VerifyRpmSignature_verdict
                (Scenario.machine Scenario.tmp_ok
                   (Scenario.prints "rpm-4.0.pkg: digests OK")
                   Scenario.all_fine) "rpm-4.0.pkg" "eext: " Scenario.boot)
      as (_ & H & _).
    apply H; vm_compute; reflexivity.
  - destruct (VerifyRpmSignature_verdict
                (Scenario.machine Scenario.tmp_ok (Scenario.prints "")
                   (Scenario.failing "-K" Scenario.exit2))
                "rpm-4.0.pkg" "eext: " Scenario.boot)
      as (_ & _ & H).
    apply (H "exit status 2" 2%Z "fatal error"). vm_compute. reflexivity.
Defined.

(** * Further properties of util.go *)

(** ** The command runners *)

(** X1.  RunSystemCmdInDir starts exactly one subprocess: the program and
    arguments it was given, in the directory it was given, standard error
    on os.Stderr, standard output on os.Stdout unless GlobalVar.Quiet is
    set, and then discarded.  It returns the error of that subprocess as it
    is and leaves the quiet flag alone.  RunSystemCmd is the same with no
    directory set. *)
Theorem RunSystemCmdInDir_routing env dir name arg w :
  let r := RunSystemCmdInDir env dir name arg w in
  (exists c,
     since w r.2 = [EvRun c r.1] /\
     r.1 = (sys_exec env w c).1.2 /\
     fs r.2 = (sys_exec env w c).2 /\
     Name c = name /\ Args c = arg /\ Dir c = dir /\
     Stderr c = Some os_Stderr /\
     Stdout c = Some (if GlobalVar_Quiet w then io_Discard else os_Stdout)) /\
  GlobalVar_Quiet r.2 = GlobalVar_Quiet w /\
  RunSystemCmd env name arg w = RunSystemCmdInDir env "" name arg w.
Proof.
  cbv zeta. split; [|split; [|reflexivity]].
  - exists (streamed (GlobalVar_Quiet w) dir (name, arg)).
    unfold RunSystemCmdInDir, bind, get_Quiet, Cmd_Run, ret, streamed. simpl.
    destruct (sys_exec env w _) as [[out err] fs']. simpl.
    split; [apply since_app; reflexivity|].
    repeat split. now destruct (GlobalVar_Quiet w).
  - apply RunSystemCmdInDir_step.
Qed.

(** X2.  CheckOutput starts exactly one subprocess, with neither standard
    output nor standard error connected to a writer (both are captured),
    whatever the quiet flag says; it returns an error exactly when that
    subprocess ended with one, and leaves the quiet flag alone. *)
Theorem CheckOutput_captures env name arg w :
  let r := CheckOutput env name arg w in
  let o := sys_exec env w (exec_Command name arg) in
  since w r.2 = [EvOutput (exec_Command name arg) o.1.1 o.1.2] /\
  Stdout (exec_Command name arg) = None /\
  Stderr (exec_Command name arg) = None /\
  fs r.2 = o.2 /\
  GlobalVar_Quiet r.2 = GlobalVar_Quiet w /\
  (r.1.2 = None <-> o.1.2 = None).
Proof.
  cbv zeta. unfold CheckOutput, bind, Cmd_Output, ret.
  destruct (sys_exec env w _) as [[out err] fs'].
  destruct err as [[st code stderr|msg]|]; simpl;
    (split; [apply since_app; reflexivity|]); repeat split;
    discriminate.
Qed.

(** ** VerifyRpmSignature *)

(** X3.  VerifyRpmSignature makes one system call only, [rpm -K rpmPath]
    with its output captured: it creates no temporary directory, starts no
    gpg and removes nothing; the file system afterwards is as rpm left it. *)
Theorem VerifyRpmSignature_only_runs_rpm env rpmPath errPrefix w :
  let r := VerifyRpmSignature env rpmPath errPrefix w in
  let c := exec_Command "rpm" ["-K"; rpmPath] in
  let o := sys_exec env w c in
  since w r.2 = [EvOutput c o.1.1 o.1.2] /\
  fs r.2 = o.2 /\
  GlobalVar_Quiet r.2 = GlobalVar_Quiet w.
Proof.
  cbv zeta. unfold VerifyRpmSignature, CheckOutput, bind, Cmd_Output, ret.
  destruct (sys_exec env w _) as [[out err] fs'].
  destruct err as [[st code stderr|msg]|]; simpl;
    try destruct (negb _); simpl;
    (split; [apply since_app; reflexivity|]); split; reflexivity.
Qed.

(** ** The two checks that use the keyring *)

(** Finds the event of a written out history that a hypothesis is about. *)
Ltac pick_event H :=
  repeat (apply elem_of_cons in H as [H|H]);
  [ .. | solve [apply elem_of_nil in H; destruct H] ];
  first [ discriminate H | inversion H; subst; clear H ].

(** X4.  VerifyTarballSignature returns nil only at the end of the whole
    sequence: the temporary directory was created, gpg created the keyring,
    imported the key and verified the signature, each without error, and
    os.RemoveAll was called on the directory.  How that removal ended has
    no part in the result; if it reported no error, nothing at or below the
    directory is left. *)
Theorem VerifyTarballSignature_nil_means_verified
  env tarballPath tarballSigPath pubKeyPath errPrefix w :
  let r :=
    VerifyTarballSignature env tarballPath tarballSigPath pubKeyPath errPrefix w in
  r.1 = None ->
  exists d out rm,
    sys_MkdirTemp env w "" "eext-keyring" = inr d /\
    (rm = None -> d <> "" ->
     forall p, sys_below env d p = true -> p ∉ fs r.2) /\
    since w r.2 =
      [EvMkdirTemp "" "eext-keyring" (inr d);
       EvRun (streamed (GlobalVar_Quiet w) "" (gpg env d ["--fingerprint"])) None;
       EvRun (streamed (GlobalVar_Quiet w) ""
                (gpg env d ["--import"; pubKeyPath])) None;
       EvOutput (exec_Command "gpg"
                   (baseArgs env d ++ ["--verify"; tarballSigPath; tarballPath]))
         out None;
       EvRemoveAll d rm].
Proof.
  cbv zeta. intros Hnil.
  destruct (VerifyTarballSignature_paths env tarballPath tarballSigPath
              pubKeyPath errPrefix w)
    as [(e & Hmk & _ & Hr)
       |(d & rm & Hmk & Hgone & [(e & _ & Hr)|[(e & _ & Hr)
          |[(out & raw & msg & _ & Hr)|(out & Hs & _)]]])];
    try (rewrite Hr in Hnil; discriminate Hnil).
  exists d, out, rm. repeat split; assumption.
Qed.

(** X5.  VerifyGitSignature returns a failure for every key, every GitSpec
    and every behaviour of the operating system: it never reports a signed
    revision. *)
Theorem VerifyGitSignature_never_nil env pubKeyPath gitSpec errPrefix w :
  (VerifyGitSignature env pubKeyPath gitSpec errPrefix w).1 <> None.
Proof.
  destruct (VerifyGitSignature_paths env pubKeyPath gitSpec errPrefix w)
    as [(e & _ & _ & Hr)|(d & rm & _ & _ & [(e & _ & Hr)|[(e & _ & Hr)|(_ & Hr)]])];
    rewrite Hr; discriminate.
Qed.

(** X6.  Both checks stop at the first subprocess that fails: in their
    history no subprocess comes after one that ended with an error. *)
Theorem keyring_checks_stop_at_first_failure
  env tarballPath tarballSigPath pubKeyPath gitSpec errPrefix w :
  stops_at_first_failure
    (outcomes (since w
       (VerifyTarballSignature env tarballPath tarballSigPath pubKeyPath
          errPrefix w).2)) = true /\
  stops_at_first_failure
    (outcomes (since w
       (VerifyGitSignature env pubKeyPath gitSpec errPrefix w).2)) = true.
Proof.
  split.
  - destruct (VerifyTarballSignature_paths env tarballPath tarballSigPath
                pubKeyPath errPrefix w)
      as [(e & _ & Hs & _)
         |(d & rm & _ & _ & [(e & Hs & _)|[(e & Hs & _)
            |[(out & raw & msg & Hs & _)|(out & Hs & _)]]])];
      rewrite Hs; reflexivity.
  - destruct (VerifyGitSignature_paths env pubKeyPath gitSpec errPrefix w)
      as [(e & _ & Hs & _)|(d & rm & _ & _ & [(e & Hs & _)|[(e & Hs & _)|(Hs & _)]])];
      rewrite Hs; reflexivity.
Qed.

(** X7.  When the temporary directory cannot be created, both checks return
    a failure whose text carries the text of the system error; they start no
    subprocess, remove nothing and leave the file system as it was. *)
Theorem no_temporary_directory_no_keyring env w e :
  sys_MkdirTemp env w "" "eext-keyring" = inl e ->
  (forall tarballPath tarballSigPath pubKeyPath errPrefix,
     let r := VerifyTarballSignature env tarballPath tarballSigPath
                pubKeyPath errPrefix w in
     since w r.2 = [EvMkdirTemp "" "eext-keyring" (inl e)] /\
     fs r.2 = fs w /\
     exists err, r.1 = Some err /\ Contains (Error err) (Error e) = true) /\
  (forall pubKeyPath gitSpec errPrefix,
     let r := VerifyGitSignature env pubKeyPath gitSpec errPrefix w in
     since w r.2 = [EvMkdirTemp "" "eext-keyring" (inl e)] /\
     fs r.2 = fs w /\
     exists err, r.1 = Some err /\ Contains (Error err) (Error e) = true).
Proof.
  intros Hmk. split; [intros ? ? ? ?|intros ? ? ?]; cbv zeta.
  - unfold VerifyTarballSignature, bind, os_MkdirTemp. rewrite Hmk. simpl.
    split; [apply since_app; reflexivity|]. split; [reflexivity|].
    eexists. split; [reflexivity|]. simpl. find_operand.
  - unfold VerifyGitSignature, bind, os_MkdirTemp. rewrite Hmk. simpl.
    split; [apply since_app; reflexivity|]. split; [reflexivity|].
    eexists. split; [reflexivity|]. simpl. find_operand.
Qed.

(** X8.  With GlobalVar.Quiet set, no subprocess of either check writes to
    os.Stdout: the output of the gpg set-up commands is discarded, that of
    gpg --verify is captured. *)
Theorem quiet_keyring_checks_keep_stdout_clean
  env tarballPath tarballSigPath pubKeyPath gitSpec errPrefix w :
  GlobalVar_Quiet w = true ->
  Forall (fun p => Stdout p.1 <> Some os_Stdout)
    (outcomes (since w
       (VerifyTarballSignature env tarballPath tarballSigPath pubKeyPath
          errPrefix w).2)) /\
  Forall (fun p => Stdout p.1 <> Some os_Stdout)
    (outcomes (since w
       (VerifyGitSignature env pubKeyPath gitSpec errPrefix w).2)).
Proof.
  intros Hq. split.
  - destruct (VerifyTarballSignature_paths env tarballPath tarballSigPath
                pubKeyPath errPrefix w)
      as [(e & _ & Hs & _)
         |(d & rm & _ & _ & [(e & Hs & _)|[(e & Hs & _)
            |[(out & raw & msg & Hs & _)|(out & Hs & _)]]])];
      rewrite Hs, ?Hq; simpl; repeat constructor; discriminate.
  - destruct (VerifyGitSignature_paths env pubKeyPath gitSpec errPrefix w)
      as [(e & _ & Hs & _)|(d & rm & _ & _ & [(e & Hs & _)|[(e & Hs & _)|(Hs & _)]])];
      rewrite Hs, ?Hq; simpl; repeat constructor; discriminate.
Qed.

(** X9.  When a gpg set-up command (keyring creation or key import) ends
    with an error, the failure that the check returns carries the text of
    that error. *)
Theorem setup_failure_carries_gpg_error env w c e :
  (forall tarballPath tarballSigPath pubKeyPath errPrefix,
     let r := VerifyTarballSignature env tarballPath tarballSigPath
                pubKeyPath errPrefix w in
     EvRun c (Some e) ∈ since w r.2 ->
     exists err, r.1 = Some err /\ Contains (Error err) (Error e) = true) /\
  (forall pubKeyPath gitSpec errPrefix,
     let r := VerifyGitSignature env pubKeyPath gitSpec errPrefix w in
     EvRun c (Some e) ∈ since w r.2 ->
     exists err, r.1 = Some err /\ Contains (Error err) (Error e) = true).
Proof.
  split; [intros tarballPath tarballSigPath pubKeyPath errPrefix
         |intros pubKeyPath gitSpec errPrefix]; cbv zeta; intros Hin.
  - destruct (VerifyTarballSignature_paths env tarballPath tarballSigPath
                pubKeyPath errPrefix w)
      as [(e0 & _ & Hs & Hr)
         |(d & rm & _ & _ & [(e0 & Hs & Hr)|[(e0 & Hs & Hr)
            |[(out & raw & msg & Hs & Hr)|(out & Hs & Hr)]]])];
      rewrite Hs in Hin; clear Hs; pick_event Hin;
      rewrite Hr; eexists; (split; [reflexivity|]); simpl; find_operand.
  - destruct (VerifyGitSignature_paths env pubKeyPath gitSpec errPrefix w)
      as [(e0 & _ & Hs & Hr)
         |(d & rm & _ & _ & [(e0 & Hs & Hr)|[(e0 & Hs & Hr)|(Hs & Hr)]])];
      rewrite Hs in Hin; clear Hs; pick_event Hin;
      rewrite Hr; eexists; (split; [reflexivity|]); simpl; find_operand.
Qed.

(** What the error of CheckOutput says, by the way the subprocess ended. *)
Lemma CheckOutput_text env name arg w :
  let r := CheckOutput env name arg w in
  exists raw,
    trace r.2 = trace w ++ [EvOutput (exec_Command name arg) r.1.1 raw] /\
    GlobalVar_Quiet r.2 = GlobalVar_Quiet w /\
    match raw with
    | None => r.1.2 = None
    | Some (ExitError _ code stderr) =>
        exists msg, r.1.2 = Some (errorString msg) /\
          Contains msg (fmt_d code) = true /\ Contains msg stderr = true
    | Some (errorString text) =>
        exists msg, r.1.2 = Some (errorString msg) /\ Contains msg text = true
    end.
Proof.
  unfold CheckOutput, bind, Cmd_Output, ret. cbv zeta.
  destruct (sys_exec env w _) as [[out err] fs'].
  exists err. destruct err as [[st code stderr|msg]|]; simpl;
    (split; [reflexivity|]); (split; [reflexivity|]); try reflexivity;
    eexists; (split; [reflexivity|]); simpl;
    first [ find_operand | split; find_operand ].
Qed.

(** Writes out the history that a hypothesis about [since] speaks of. *)
Ltac unfold_history H :=
  match type of H with
  | context [since ?a ?b] =>
      let Hs := fresh "Hs" in
      eassert (Hs : since a b = _) by history;
      rewrite Hs in H; clear Hs
  end.

(** Finds an operand inside a part of the message that [H] speaks of. *)
Ltac find_inside H :=
  lazymatch goal with
  | |- Contains (String _ _) _ = true => apply Contains_skip; find_inside H
  | |- Contains (_ +:+ _) _ = true =>
      first [ solve [apply Contains_before; exact H]
            | apply Contains_after; find_inside H ]
  end.

(** X10.  When gpg --verify exits with an exit code, the failure that
    VerifyTarballSignature returns names the signature file, the tarball
    and the public key, and carries the exit code, what gpg wrote to its
    standard error and what it wrote to its standard output. *)
Theorem verify_failure_is_explained
  env tarballPath tarballSigPath pubKeyPath errPrefix w c out state code stderr :
  let r :=
    VerifyTarballSignature env tarballPath tarballSigPath pubKeyPath errPrefix w in
  EvOutput c out (Some (ExitError state code stderr)) ∈ since w r.2 ->
  exists err,
    r.1 = Some err /\
    Contains (Error err) tarballSigPath = true /\
    Contains (Error err) tarballPath = true /\
    Contains (Error err) pubKeyPath = true /\
    Contains (Error err) (fmt_d code) = true /\
    Contains (Error err) stderr = true /\
    Contains (Error err) out = true.
Proof.
  cbv zeta. unfold VerifyTarballSignature, bind, defer, ret.
  step_mkdir.
  - intros Hin. unfold_history Hin. pick_event Hin.
  - step_run; [step_remove; intros Hin; unfold_history Hin; pick_event Hin|].
    step_run; [step_remove; intros Hin; unfold_history Hin; pick_event Hin|].
    match goal with
    | |- context [CheckOutput ?E ?N ?A ?W] =>
        pose proof (CheckOutput_text E N A W) as Hc; cbv zeta in Hc;
        destruct (CheckOutput E N A W) as [[output err] w3]
    end.
    simpl in Hc. destruct Hc as (raw & Ht2 & Hq2 & Hraw).
    destruct raw as [[st' code' stderr'|text]|].
    + destruct Hraw as (msg & -> & Hcode & Herr). simpl. step_remove.
      intros Hin. unfold_history Hin. pick_event Hin.
      eexists. split; [reflexivity|]. simpl.
      repeat split;
        first [ find_operand | find_inside Hcode | find_inside Herr ].
    + destruct Hraw as (msg & -> & _). simpl. step_remove.
      intros Hin. unfold_history Hin. pick_event Hin.
    + rewrite Hraw. simpl. step_remove. intros Hin. unfold_history Hin. pick_event Hin.
Qed.

(** ** Creating directories *)

(** X11.  MaybeCreateDirWithParents starts exactly one subprocess,
    [mkdir -p dirPath], and returns nil exactly when it ended without
    error; otherwise the failure begins with the caller's prefix and
    carries the error of mkdir and the directory. *)
Theorem MaybeCreateDirWithParents_runs_mkdir env dirPath errPrefix w :
  let r := MaybeCreateDirWithParents env dirPath errPrefix w in
  let c := streamed (GlobalVar_Quiet w) "" ("mkdir", ["-p"; dirPath]) in
  let o := sys_exec env w c in
  since w r.2 = [EvRun c o.1.2] /\
  fs r.2 = o.2 /\
  match o.1.2 with
  | None => r.1 = None
  | Some e =>
      exists err, r.1 = Some err /\
        String.prefix errPrefix (Error err) = true /\
        Contains (Error err) (Error e) = true /\
        Contains (Error err) dirPath = true
  end.
Proof.
  cbv zeta.
  unfold MaybeCreateDirWithParents, RunSystemCmd, bind, get_Quiet, Cmd_Run,
    ret, streamed. simpl.
  destruct (sys_exec env w _) as [[out [e|]] fs']; simpl;
    (split; [apply since_app; reflexivity|]); (split; [reflexivity|]);
    [|reflexivity].
  eexists. split; [reflexivity|]. simpl.
  split; [apply prefix_append|]. split; find_operand.
Qed.

(** X12.  MaybeCreateDir returns nil exactly when os.Mkdir succeeded or
    failed with an error that os.IsExist accepts.  It starts no subprocess,
    never removes a path and adds none but [dirPath]; after a successful
    os.Mkdir the directory exists, after a failed one the file system is as
    before.  Its failures begin with the caller's prefix. *)
Theorem MaybeCreateDir_keeps_what_exists fenv dirPath errPrefix w :
  let r := MaybeCreateDir fenv dirPath errPrefix w in
  let m := sys_Mkdir fenv w dirPath 509 in
  (r.1 = None <->
     m = None \/ exists e, m = Some e /\ os_IsExist fenv e = true) /\
  since w r.2 = [] /\
  fs w ⊆ fs r.2 /\
  fs r.2 ⊆ {[ dirPath ]} ∪ fs w /\
  match m with
  | None => dirPath ∈ fs r.2
  | Some _ => r.2 = w
  end /\
  match r.1 with
  | None => True
  | Some err => String.prefix errPrefix (Error err) = true
  end.
Proof.
  cbv zeta. unfold MaybeCreateDir, os_Mkdir, bind, ret.
  destruct (sys_Mkdir fenv w dirPath 509) as [e|]; simpl.
  - destruct (os_IsExist fenv e) eqn:Hex; simpl.
    + split; [split; [intros _; right; now exists e|reflexivity]|].
      split; [apply since_app; symmetry; apply app_nil_r|].
      repeat split; set_solver.
    + split.
      { split; [discriminate|].
        intros [H|(e' & [= <-] & H)]; [discriminate H|congruence]. }
      split; [apply since_app; symmetry; apply app_nil_r|].
      repeat split; try set_solver. apply prefix_append.
  - split; [split; [intros _; now left|reflexivity]|].
    split; [apply since_app; symmetry; apply app_nil_r|].
    repeat split; set_solver.
Qed.

(** ** CheckPath *)

(** X13.  CheckPath returns nil exactly when os.Stat finds the path, the
    path is a directory if that was asked for, and unix.Access grants
    writing if that was asked for.  It changes nothing. *)
Theorem CheckPath_verdict fenv path checkDir checkWritable w :
  let r := CheckPath fenv path checkDir checkWritable w in
  r.2 = w /\
  (r.1 = None <->
     exists isDir,
       sys_Stat fenv w path = inr isDir /\
       (checkDir = true -> isDir = true) /\
       (checkWritable = true -> sys_Access fenv w path W_OK = None)).
Proof.
  cbv zeta. unfold CheckPath, os_Stat, unix_Access, bind, ret.
  destruct (sys_Stat fenv w path) as [e|isDir]; simpl.
  - split; [reflexivity|]. split; [discriminate|].
    intros (isDir & H & _). discriminate H.
  - destruct checkDir, isDir, checkWritable; simpl;
      try destruct (sys_Access fenv w path W_OK) as [ae|] eqn:Ha; simpl;
      (split; [reflexivity|]);
      (split;
       [ first [ discriminate
               | intros _; eexists; split; [reflexivity|];
                 split; intros; congruence ]
       | first [ reflexivity
               | intros (isDir & [= <-] & Hd & Hw);
                 first [ specialize (Hd eq_refl); discriminate Hd
                       | specialize (Hw eq_refl); discriminate Hw ] ] ]).
Qed.

(** X14.  The checks of CheckPath add up: a path that passes with both
    checks asked for passes with any choice of checks. *)
Theorem CheckPath_strictest_implies_all fenv path w :
  (CheckPath fenv path true true w).1 = None ->
  forall checkDir checkWritable,
    (CheckPath fenv path checkDir checkWritable w).1 = None.
Proof.
  unfold CheckPath, os_Stat, unix_Access, bind, ret.
  destruct (sys_Stat fenv w path) as [e|isDir]; simpl; [discriminate|].
  intros H checkDir checkWritable. revert H.
  destruct isDir, checkDir, checkWritable; cbn; intros H;
    first [reflexivity | discriminate H | exact H].
Qed.

(** ** RemoveDirs *)

(** One turn of the loop of RemoveDirs. *)
Lemma RemoveDirs_cons env errPrefix dir dirs w :
  RemoveDirs env (dir :: dirs) errPrefix w =
  let r := os_RemoveAll env dir w in
  match r.1 with
  | Some e =>
      (Some (Errorf "%sError '%s' while removing %s"
               [AStr errPrefix; AErr e; AStr dir]), r.2)
  | None => RemoveDirs env dirs errPrefix r.2
  end.
Proof.
  simpl. unfold bind.
  destruct (os_RemoveAll env dir w) as [[e|] w']; reflexivity.
Qed.

(** What a run of RemoveDirs does, by its result. *)
Lemma RemoveDirs_run env errPrefix dirs : forall w,
  let r := RemoveDirs env dirs errPrefix w in
  let removed d := EvRemoveAll d None in
  fs r.2 ⊆ fs w /\
  (forall p, p ∈ fs w ->
     (forall d, d ∈ dirs -> d <> "" -> sys_below env d p = false) ->
     p ∈ fs r.2) /\
  GlobalVar_Quiet r.2 = GlobalVar_Quiet w /\
  match r.1 with
  | None =>
      trace r.2 = trace w ++ (removed <$> dirs) /\
      forall d p, d ∈ dirs -> d <> "" -> sys_below env d p = true ->
                  p ∉ fs r.2
  | Some err =>
      exists done d rest e,
        dirs = done ++ d :: rest /\
        trace r.2 = trace w ++ (removed <$> done) ++ [EvRemoveAll d (Some e)] /\
        err = Errorf "%sError '%s' while removing %s"
                [AStr errPrefix; AErr e; AStr d] /\
        forall d' p, d' ∈ done -> d' <> "" -> sys_below env d' p = true ->
                     p ∉ fs r.2
  end.
Proof.
  induction dirs as [|dir dirs IH]; intros w; cbv zeta.
  - simpl. repeat split; try done.
    + symmetry. apply app_nil_r.
    + intros d p Hd. now apply elem_of_nil in Hd.
  - rewrite RemoveDirs_cons. cbv zeta.
    destruct (os_RemoveAll_step env dir w) as [Ht Hq].
    destruct (os_RemoveAll_effect env dir w) as (Hsub & Hframe & Hgone).
    pose proof (os_RemoveAll_empty env w) as Hempty.
    cbv zeta in Ht, Hq, Hsub, Hframe, Hgone.
    assert (Hkeep : forall p, p ∈ fs w ->
              (dir <> "" -> sys_below env dir p = false) ->
              p ∈ fs (os_RemoveAll env dir w).2).
    { intros p Hp Hout. destruct (decide (dir = "")) as [->|Hne].
      - rewrite Hempty. exact Hp.
      - apply Hframe; [exact Hp|]. now apply Hout. }
    clear Hempty Hframe.
    destruct (os_RemoveAll env dir w) as [[e|] w1];
      simpl in Ht, Hq, Hsub, Hgone, Hkeep |- *.
    + split; [exact Hsub|]. split.
      { intros p Hp Hout. apply Hkeep; [exact Hp|].
        apply Hout, elem_of_cons. now left. }
      split; [exact Hq|].
      exists [], dir, dirs, e. repeat split; [exact Ht|].
      intros d' p Hd'. now apply elem_of_nil in Hd'.
    + specialize (IH w1). cbv zeta in IH.
      destruct (RemoveDirs env dirs errPrefix w1) as [r1 w2].
      simpl in IH |- *. destruct IH as (Hsub' & Hframe' & Hq' & Hres).
      split; [intros p Hp; apply Hsub, Hsub', Hp|].
      split.
      { intros p Hp Hout. apply Hframe'.
        - apply Hkeep; [exact Hp|]. apply Hout, elem_of_cons. now left.
        - intros d Hd. apply Hout, elem_of_cons. now right. }
      split; [now rewrite Hq'|].
      destruct r1 as [err|].
      * destruct Hres as (done & d & rest & e & -> & Ht' & -> & Hdone).
        exists (dir :: done), d, rest, e. repeat split.
        { rewrite Ht', Ht, <- app_assoc. reflexivity. }
        intros d' p Hd' Hne Hin Hp. apply elem_of_cons in Hd' as [->|Hd'].
        -- apply Hsub' in Hp. now apply (Hgone eq_refl Hne p).
        -- now apply (Hdone d' p).
      * destruct Hres as [Ht' Hgone']. split.
        { rewrite Ht', Ht, <- app_assoc. reflexivity. }
        intros d p Hd Hne Hin Hp. apply elem_of_cons in Hd as [->|Hd].
        -- apply Hsub' in Hp. now apply (Hgone eq_refl Hne p).
        -- now apply (Hgone' d p).
Qed.

(** X15.  When RemoveDirs returns nil, it has called os.RemoveAll on the
    paths in the order given, each once and each without error, and for
    every path of the list that is not empty, nothing at or below it exists
    any more.  An empty path in the list is passed over: os.RemoveAll
    accepts it and removes nothing. *)
Theorem RemoveDirs_nil_means_all_gone env dirs errPrefix w :
  let r := RemoveDirs env dirs errPrefix w in
  r.1 = None ->
  since w r.2 = (fun d => EvRemoveAll d None) <$> dirs /\
  (forall d p, d ∈ dirs -> d <> "" -> sys_below env d p = true ->
               p ∉ fs r.2) /\
  RemoveDirs env [""] errPrefix w = (None, log (EvRemoveAll "" None) w).
Proof.
  cbv zeta. intros Hnil.
  destruct (RemoveDirs_run env errPrefix dirs w) as (_ & _ & _ & H).
  cbv zeta in H. rewrite Hnil in H. destruct H as [Ht Hgone].
  split; [apply since_app; exact Ht|]. split; [exact Hgone|reflexivity].
Qed.

(** X16.  RemoveDirs only removes, and only what it was asked to: it
    creates no path, and a path that the machine counts neither as one of
    the paths of the list nor as below one of them is still there
    afterwards, also when a removal fails.  It starts no subprocess. *)
Theorem RemoveDirs_touches_only_its_directories env dirs errPrefix w :
  let r := RemoveDirs env dirs errPrefix w in
  fs r.2 ⊆ fs w /\
  (forall p, p ∈ fs w ->
     (forall d, d ∈ dirs -> d <> "" -> sys_below env d p = false) ->
     p ∈ fs r.2) /\
  invocations (since w r.2) = [].
Proof.
  cbv zeta.
  destruct (RemoveDirs_run env errPrefix dirs w) as (Hsub & Hframe & _ & H).
  cbv zeta in H. split; [exact Hsub|]. split; [exact Hframe|].
  assert (Hnone : forall l,
            invocations ((fun d => EvRemoveAll d None) <$> l) = []).
  { induction l as [|x l IHl]; [reflexivity|exact IHl]. }
  destruct (RemoveDirs env dirs errPrefix w).1 as [err|].
  - destruct H as (done & d & rest & e & _ & Ht & _).
    rewrite (since_app _ _ _ Ht). unfold invocations.
    rewrite omap_app. fold (invocations ((fun d => EvRemoveAll d None) <$> done)).
    rewrite Hnone. reflexivity.
  - destruct H as [Ht _]. rewrite (since_app _ _ _ Ht). apply Hnone.
Qed.

(** X17.  RemoveDirs stops at the first path whose removal fails.  Its
    history is the removals of the paths before it, each without error,
    and then the failed removal with its error; the paths after it are not
    attempted.  Nothing at or below a path before it is left (the empty
    path apart).  The failure is
    [errPrefix ++ "Error '" ++ error ++ "' while removing " ++ path]: it
    begins with the caller's prefix, carries the error of that removal and
    names the path. *)
Theorem RemoveDirs_stops_at_first_failure env dirs errPrefix w err :
  let r := RemoveDirs env dirs errPrefix w in
  r.1 = Some err ->
  exists done d rest e,
    dirs = done ++ d :: rest /\
    since w r.2 =
      ((fun d => EvRemoveAll d None) <$> done) ++ [EvRemoveAll d (Some e)] /\
    (forall d' p, d' ∈ done -> d' <> "" -> sys_below env d' p = true ->
                  p ∉ fs r.2) /\
    Error err =
      errPrefix +:+ "Error '" +:+ Error e +:+ "' while removing " +:+ d /\
    String.prefix errPrefix (Error err) = true /\
    Contains (Error err) d = true /\
    Contains (Error err) (Error e) = true.
Proof.
  cbv zeta. intros Herr.
  destruct (RemoveDirs_run env errPrefix dirs w) as (_ & _ & _ & H).
  cbv zeta in H. rewrite Herr in H.
  destruct H as (done & d & rest & e & Hdirs & Ht & -> & Hdone).
  exists done, d, rest, e. split; [exact Hdirs|].
  split; [apply since_app; exact Ht|]. split; [exact Hdone|].
  split.
  { assert (Hnil : forall x : string, x +:+ "" = x).
    { induction x as [|c x IHx]; [reflexivity|].
      change (String c (x +:+ "") = String c x). now rewrite IHx. }
    simpl. rewrite Hnil. reflexivity. }
  split; [apply Errorf_prefix|]. simpl. split; find_operand.
Qed.

(** ** CopyToDestDir *)

Lemma CheckPath_changes_nothing fenv path checkDir checkWritable w :
  (CheckPath fenv path checkDir checkWritable w).2 = w.
Proof.
  unfold CheckPath, os_Stat, unix_Access, bind, ret.
  destruct (sys_Stat fenv w path) as [e|isDir]; [reflexivity|].
  destruct checkDir, isDir, checkWritable; cbn; try reflexivity;
    now destruct (sys_Access fenv w path W_OK).
Qed.

(** One turn of the loop of CopyToDestDir. *)
Lemma CopyToDestDir_range_cons env errPrefix destDir file files w :
  CopyToDestDir_range env (file :: files) destDir errPrefix w =
  let r := RunSystemCmd env "cp" ["-rf"; file; destDir +:+ "/"] w in
  match r.1 with
  | Some err =>
      (Some (Errorf "%scopying %s to %s errored out with '%s'"
               [AStr errPrefix; AStr file; AStr (destDir +:+ "/"); AErr err]),
       r.2)
  | None => CopyToDestDir_range env files destDir errPrefix r.2
  end.
Proof.
  simpl. unfold bind.
  now destruct (RunSystemCmd env "cp" _ w) as [[err|] w'].
Qed.

(** What a run of the loop does, by its result. *)
Lemma CopyToDestDir_range_run env errPrefix destDir files : forall w,
  let r := CopyToDestDir_range env files destDir errPrefix w in
  let copy f := EvRun (streamed (GlobalVar_Quiet w) "" (cp destDir f)) in
  GlobalVar_Quiet r.2 = GlobalVar_Quiet w /\
  match r.1 with
  | None => trace r.2 = trace w ++ ((fun f => copy f None) <$> files)
  | Some err =>
      exists done file rest e,
        files = done ++ file :: rest /\
        trace r.2 =
          trace w ++ ((fun f => copy f None) <$> done) ++ [copy file (Some e)] /\
        err = Errorf "%scopying %s to %s errored out with '%s'"
                [AStr errPrefix; AStr file; AStr (destDir +:+ "/"); AErr e]
  end.
Proof.
  induction files as [|file files IH]; intros w; cbv zeta.
  - simpl. split; [reflexivity|]. symmetry. apply app_nil_r.
  - rewrite CopyToDestDir_range_cons. cbv zeta.
    destruct (RunSystemCmd_step env "cp" ["-rf"; file; destDir +:+ "/"] w)
      as [Ht Hq].
    cbv zeta in Ht, Hq.
    destruct (RunSystemCmd env "cp" _ w) as [[e|] w1]; simpl in Ht, Hq |- *.
    + split; [exact Hq|]. exists [], file, files, e. repeat split. exact Ht.
    + specialize (IH w1). cbv zeta in IH.
      destruct (CopyToDestDir_range env files destDir errPrefix w1)
        as [r1 w2].
      simpl in IH |- *. destruct IH as [Hq' Hres]. rewrite Hq in Hq', Hres.
      split; [exact Hq'|].
      destruct r1 as [err|].
      * destruct Hres as (done & f & rest & e & -> & Ht' & ->).
        exists (file :: done), f, rest, e. repeat split.
        rewrite Ht', Ht, <- app_assoc. reflexivity.
      * rewrite Hres, Ht, <- app_assoc. reflexivity.
Qed.

(** The three ways into CopyToDestDir: the destination is refused, the
    pattern is refused, the loop runs. *)
Lemma CopyToDestDir_cases env fenv srcGlob destDir errPrefix w :
  let r := CopyToDestDir env fenv srcGlob destDir errPrefix w in
  match (CheckPath fenv destDir true true w).1 with
  | Some e =>
      r = (Some (Errorf "%sDirectory %s should be present and writable: %s"
                   [AStr errPrefix; AStr destDir; AErr e]), w)
  | None =>
      match sys_Glob fenv w srcGlob with
      | inl e =>
          r = (Some (Errorf "%sGlob %s returned %s"
                       [AStr errPrefix; AStr srcGlob; AErr e]), w)
      | inr files => r = CopyToDestDir_range env files destDir errPrefix w
      end
  end.
Proof.
  cbv zeta. unfold CopyToDestDir, bind, filepath_Glob.
  pose proof (CheckPath_changes_nothing fenv destDir true true w) as Hw.
  destruct (CheckPath fenv destDir true true w) as [[e|] w']; simpl in Hw |- *;
    subst w'; [reflexivity|].
  destruct (sys_Glob fenv w srcGlob) as [e|files]; reflexivity.
Qed.

(** X18.  When the destination does not pass CheckPath as a writable
    directory, CopyToDestDir does nothing: no pattern is expanded into
    copies, no subprocess is started, the world is as before; the failure
    begins with the caller's prefix, names the destination and carries the
    error of the check. *)
Theorem CopyToDestDir_refuses_bad_destination
  env fenv srcGlob destDir errPrefix w e :
  (CheckPath fenv destDir true true w).1 = Some e ->
  let r := CopyToDestDir env fenv srcGlob destDir errPrefix w in
  r.2 = w /\
  exists err,
    r.1 = Some err /\
    String.prefix errPrefix (Error err) = true /\
    Contains (Error err) destDir = true /\
    Contains (Error err) (Error e) = true.
Proof.
  intros Hcheck. cbv zeta.
  pose proof (CopyToDestDir_cases env fenv srcGlob destDir errPrefix w) as H.
  cbv zeta in H. rewrite Hcheck in H. rewrite H. simpl.
  split; [reflexivity|]. eexists. split; [reflexivity|].
  split; [apply Errorf_prefix|]. simpl. split; find_operand.
Qed.

(** X19.  When filepath.Glob refuses the pattern, CopyToDestDir copies
    nothing and leaves the world as it was; the failure begins with the
    caller's prefix, names the pattern and carries the error of Glob. *)
Theorem CopyToDestDir_refuses_bad_pattern
  env fenv srcGlob destDir errPrefix w e :
  (CheckPath fenv destDir true true w).1 = None ->
  sys_Glob fenv w srcGlob = inl e ->
  let r := CopyToDestDir env fenv srcGlob destDir errPrefix w in
  r.2 = w /\
  exists err,
    r.1 = Some err /\
    String.prefix errPrefix (Error err) = true /\
    Contains (Error err) srcGlob = true /\
    Contains (Error err) (Error e) = true.
Proof.
  intros Hcheck Hglob. cbv zeta.
  pose proof (CopyToDestDir_cases env fenv srcGlob destDir errPrefix w) as H.
  cbv zeta in H. rewrite Hcheck, Hglob in H. rewrite H. simpl.
  split; [reflexivity|]. eexists. split; [reflexivity|].
  split; [apply Errorf_prefix|]. simpl. split; find_operand.
Qed.

(** X20.  When CopyToDestDir returns nil, the destination passed the check
    and every path that the pattern matched has been copied into it, by one
    [cp -rf file destDir/] each, in the order of the matches, all ending
    without error, and nothing else was run.  For a pattern without match
    this means no subprocess at all. *)
Theorem CopyToDestDir_nil_means_all_copied
  env fenv srcGlob destDir errPrefix w :
  let r := CopyToDestDir env fenv srcGlob destDir errPrefix w in
  r.1 = None ->
  (CheckPath fenv destDir true true w).1 = None /\
  exists files,
    sys_Glob fenv w srcGlob = inr files /\
    since w r.2 =
      (fun f => EvRun (streamed (GlobalVar_Quiet w) "" (cp destDir f)) None)
        <$> files.
Proof.
  cbv zeta. intros Hnil.
  pose proof (CopyToDestDir_cases env fenv srcGlob destDir errPrefix w) as H.
  cbv zeta in H.
  destruct (CheckPath fenv destDir true true w).1 as [e|];
    [rewrite H in Hnil; discriminate Hnil|].
  split; [reflexivity|].
  destruct (sys_Glob fenv w srcGlob) as [e|files];
    [rewrite H in Hnil; discriminate Hnil|].
  exists files. split; [reflexivity|]. rewrite H in Hnil |- *.
  destruct (CopyToDestDir_range_run env errPrefix destDir files w) as [_ Hres].
  cbv zeta in Hres. rewrite Hnil in Hres. apply since_app. exact Hres.
Qed.

(** X21.  A pattern that matches nothing is no error: with a destination
    that passes the check, CopyToDestDir returns nil and does nothing. *)
Theorem CopyToDestDir_nothing_to_copy env fenv srcGlob destDir errPrefix w :
  (CheckPath fenv destDir true true w).1 = None ->
  sys_Glob fenv w srcGlob = inr [] ->
  CopyToDestDir env fenv srcGlob destDir errPrefix w = (None, w).
Proof.
  intros Hcheck Hglob.
  pose proof (CopyToDestDir_cases env fenv srcGlob destDir errPrefix w) as H.
  cbv zeta in H. rewrite Hcheck, Hglob in H. exact H.
Qed.

(** X22.  CopyToDestDir stops at the first copy that fails: the matches
    before it have been copied, those after it are not attempted, and the
    failure begins with the caller's prefix, names the file and carries the
    error of cp. *)
Theorem CopyToDestDir_stops_at_first_failed_copy
  env fenv srcGlob destDir errPrefix w files err :
  (CheckPath fenv destDir true true w).1 = None ->
  sys_Glob fenv w srcGlob = inr files ->
  let r := CopyToDestDir env fenv srcGlob destDir errPrefix w in
  r.1 = Some err ->
  exists done file rest e,
    files = done ++ file :: rest /\
    since w r.2 =
      ((fun f => EvRun (streamed (GlobalVar_Quiet w) "" (cp destDir f)) None)
         <$> done)
      ++ [EvRun (streamed (GlobalVar_Quiet w) "" (cp destDir file)) (Some e)] /\
    String.prefix errPrefix (Error err) = true /\
    Contains (Error err) file = true /\
    Contains (Error err) (Error e) = true.
Proof.
  intros Hcheck Hglob. cbv zeta. intros Herr.
  pose proof (CopyToDestDir_cases env fenv srcGlob destDir errPrefix w) as H.
  cbv zeta in H. rewrite Hcheck, Hglob in H. rewrite H in Herr |- *.
  destruct (CopyToDestDir_range_run env errPrefix destDir files w) as [_ Hres].
  cbv zeta in Hres. rewrite Herr in Hres.
  destruct Hres as (done & file & rest & e & Hfiles & Ht & ->).
  exists done, file, rest, e. split; [exact Hfiles|].
  split; [apply since_app; exact Ht|].
  split; [apply Errorf_prefix|]. simpl. split; find_operand.
Qed.

(** ** RemoveDirs, again *)

(** X23.  Removing a list of directories in two parts is removing the
    whole list: RemoveDirs on [dirs1 ++ dirs2] is RemoveDirs on [dirs1]
    and, if that returned nil, RemoveDirs on [dirs2] in the world reached;
    a failure in the first part is the failure of the whole. *)
Theorem RemoveDirs_app env dirs1 dirs2 errPrefix w :
  RemoveDirs env (dirs1 ++ dirs2) errPrefix w =
  let r := RemoveDirs env dirs1 errPrefix w in
  match r.1 with
  | None => RemoveDirs env dirs2 errPrefix r.2
  | Some _ => r
  end.
Proof.
  revert w. induction dirs1 as [|dir dirs1 IH]; intros w; [reflexivity|].
  cbv zeta. change ((dir :: dirs1) ++ dirs2) with (dir :: (dirs1 ++ dirs2)).
  rewrite !RemoveDirs_cons. cbv zeta.
  destruct (os_RemoveAll env dir w) as [[e|] w1]; [reflexivity|].
  apply IH.
Qed.

(** ** The further properties at work on the sample machines *)

Lemma VerifyTarballSignature_nil_means_verified_witness :
  exists d,
    sys_MkdirTemp Scenario.healthy Scenario.boot "" "eext-keyring" = inr d /\
    last (since Scenario.boot
            (VerifyTarballSignature Scenario.healthy "pkg.tar.gz"
               "pkg.tar.gz.sig" "key.pub" "eext: " Scenario.boot).2)
      = Some (EvRemoveAll d None).
Proof.
  destruct (VerifyTarballSignature_nil_means_verified Scenario.healthy
              "pkg.tar.gz" "pkg.tar.gz.sig" "key.pub" "eext: " Scenario.boot)
    as (d & out & rm & Hmk & _ & Hs); [vm_compute; reflexivity|].
  exists d. split; [exact Hmk|].
  assert (Hlast : last (since Scenario.boot
            (VerifyTarballSignature Scenario.healthy "pkg.tar.gz"
               "pkg.tar.gz.sig" "key.pub" "eext: " Scenario.boot).2)
          = Some (EvRemoveAll Scenario.keyring_dir None))
    by (vm_compute; reflexivity).
  rewrite Hlast. rewrite Hs in Hlast. simpl in Hlast.
  injection Hlast as <- _. reflexivity.
Defined.

Lemma no_temporary_directory_no_keyring_witness :
  fs (VerifyTarballSignature
        (Scenario.machine Scenario.tmp_full (Scenario.prints "")
           Scenario.all_fine)
        "pkg.tar.gz" "pkg.tar.gz.sig" "key.pub" "eext: " Scenario.boot).2
  = fs Scenario.boot.
Proof.
  edestruct (no_temporary_directory_no_keyring
               (Scenario.machine Scenario.tmp_full (Scenario.prints "")
                  Scenario.all_fine) Scenario.boot) as [Ht _];
    [vm_compute; reflexivity|].
  exact (proj1 (proj2 (Ht "pkg.tar.gz" "pkg.tar.gz.sig" "key.pub" "eext: "))).
Defined.

Lemma quiet_keyring_checks_keep_stdout_clean_witness :
  Forall (fun p => Stdout p.1 <> Some os_Stdout)
    (outcomes (since Disk.quiet_boot
       (VerifyTarballSignature Scenario.healthy "pkg.tar.gz" "pkg.tar.gz.sig"
          "key.pub" "eext: " Disk.quiet_boot).2)).
Proof.
  exact (proj1 (quiet_keyring_checks_keep_stdout_clean Scenario.healthy
                  "pkg.tar.gz" "pkg.tar.gz.sig" "key.pub" Scenario.tag
                  "eext: " Disk.quiet_boot eq_refl)).
Defined.

Lemma setup_failure_carries_gpg_error_witness :
  exists err,
    (VerifyGitSignature
       (Scenario.machine Scenario.tmp_ok (Scenario.prints "")
          (Scenario.failing "--fingerprint" Scenario.exit2))
       "key.pub" Scenario.tag "eext: " Scenario.boot).1 = Some err /\
    Contains (Error err) (Error Scenario.exit2) = true.
Proof.
  apply (proj2 (setup_failure_carries_gpg_error
                  (Scenario.machine Scenario.tmp_ok (Scenario.prints "")
                     (Scenario.failing "--fingerprint" Scenario.exit2))
                  Scenario.boot
                  (streamed false ""
                     (gpg Scenario.healthy Scenario.keyring_dir ["--fingerprint"]))
                  Scenario.exit2) "key.pub" Scenario.tag "eext: ").
  apply list_elem_of_In. vm_compute. right; left. reflexivity.
Defined.

Lemma verify_failure_is_explained_witness :
  exists err,
    (VerifyTarballSignature
       (Scenario.machine Scenario.tmp_ok (Scenario.prints "no signature")
          (Scenario.failing "--verify" Scenario.exit2))
       "pkg.tar.gz" "pkg.tar.gz.sig" "key.pub" "eext: " Scenario.boot).1
      = Some err /\
    Contains (Error err) "no signature" = true.
Proof.
  edestruct (verify_failure_is_explained
               (Scenario.machine Scenario.tmp_ok (Scenario.prints "no signature")
                  (Scenario.failing "--verify" Scenario.exit2))
               "pkg.tar.gz" "pkg.tar.gz.sig" "key.pub" "eext: " Scenario.boot
               (exec_Command "gpg"
                  (baseArgs Scenario.healthy Scenario.keyring_dir
                     ++ ["--verify"; "pkg.tar.gz.sig"; "pkg.tar.gz"]))
               "no signature" "exit status 2" 2 "fatal error")
    as (err & Hr & _ & _ & _ & _ & _ & Hout).
  - apply list_elem_of_In. vm_compute. do 3 right. left. reflexivity.
  - exists err. split; [exact Hr|exact Hout].
Defined.

Lemma CheckPath_strictest_implies_all_witness :
  (CheckPath Disk.plain "/tmp" false true Scenario.boot).1 = None.
Proof.
  apply (CheckPath_strictest_implies_all Disk.plain "/tmp" Scenario.boot).
  vm_compute. reflexivity.
Defined.

Lemma RemoveDirs_nil_means_all_gone_witness :
  since Scenario.boot
    (RemoveDirs Scenario.healthy ["/tmp"; ""; "/src/repo"] "eext: "
       Scenario.boot).2
  = [EvRemoveAll "/tmp" None; EvRemoveAll "" None;
     EvRemoveAll "/src/repo" None].
Proof.
  apply (RemoveDirs_nil_means_all_gone Scenario.healthy
           ["/tmp"; ""; "/src/repo"] "eext: " Scenario.boot).
  vm_compute. reflexivity.
Defined.

Lemma RemoveDirs_stops_at_first_failure_witness :
  exists done d rest e,
    ["/tmp"; "/src/repo"; "/var/cache"] = done ++ d :: rest /\
    since Scenario.boot
      (RemoveDirs (Disk.holding ["/src/repo"] Scenario.healthy)
         ["/tmp"; "/src/repo"; "/var/cache"] "eext: " Scenario.boot).2
    = ((fun d => EvRemoveAll d None) <$> done) ++ [EvRemoveAll d (Some e)].
Proof.
  edestruct (RemoveDirs_stops_at_first_failure
               (Disk.holding ["/src/repo"] Scenario.healthy)
               ["/tmp"; "/src/repo"; "/var/cache"] "eext: " Scenario.boot)
    as (done & d & rest & e & Hdirs & Hs & _); [vm_compute; reflexivity|].
  exists done, d, rest, e. split; [exact Hdirs|exact Hs].
Defined.

Lemma CopyToDestDir_refuses_bad_destination_witness :
  (CopyToDestDir Scenario.healthy (Disk.disk [] Disk.two_rpms)
     "/src/repo/*.rpm" "/mnt/out" "eext: " Scenario.boot).2 = Scenario.boot.
Proof.
  edestruct (CopyToDestDir_refuses_bad_destination Scenario.healthy
               (Disk.disk [] Disk.two_rpms) "/src/repo/*.rpm" "/mnt/out"
               "eext: " Scenario.boot) as [Hw _]; [vm_compute; reflexivity|].
  exact Hw.
Defined.

Lemma CopyToDestDir_refuses_bad_pattern_witness :
  (CopyToDestDir Scenario.healthy (Disk.disk [] Disk.bad_pattern)
     "/src/repo/[.rpm" "/tmp" "eext: " Scenario.boot).2 = Scenario.boot.
Proof.
  edestruct (CopyToDestDir_refuses_bad_pattern Scenario.healthy
               (Disk.disk [] Disk.bad_pattern) "/src/repo/[.rpm" "/tmp"
               "eext: " Scenario.boot) as [Hw _];
    [vm_compute; reflexivity|vm_compute; reflexivity|].
  exact Hw.
Defined.

Lemma CopyToDestDir_nil_means_all_copied_witness :
  exists files,
    sys_Glob (Disk.disk [] Disk.two_rpms) Scenario.boot "/src/repo/*.rpm"
      = inr files /\
    since Scenario.boot
      (CopyToDestDir Scenario.healthy (Disk.disk [] Disk.two_rpms)
         "/src/repo/*.rpm" "/tmp" "eext: " Scenario.boot).2
    = (fun f => EvRun (streamed (GlobalVar_Quiet Scenario.boot) ""
                         (cp "/tmp" f)) None) <$> files.
Proof.
  apply (CopyToDestDir_nil_means_all_copied Scenario.healthy
           (Disk.disk [] Disk.two_rpms) "/src/repo/*.rpm" "/tmp" "eext: "
           Scenario.boot).
  vm_compute. reflexivity.
Defined.

Lemma CopyToDestDir_nothing_to_copy_witness :
  CopyToDestDir Scenario.healthy Disk.plain "/src/repo/*.rpm" "/tmp" "eext: "
    Scenario.boot = (None, Scenario.boot).
Proof.
  apply (CopyToDestDir_nothing_to_copy Scenario.healthy Disk.plain
           "/src/repo/*.rpm" "/tmp" "eext: " Scenario.boot);
    vm_compute; reflexivity.
Defined.

Lemma CopyToDestDir_stops_at_first_failed_copy_witness :
  exists done file rest,
    ["/src/repo/a.rpm"; "/src/repo/b.rpm"] = done ++ file :: rest /\
    Datatypes.length
      (since Scenario.boot
         (CopyToDestDir
            (Scenario.machine Scenario.tmp_ok (Scenario.prints "")
               (Scenario.failing "/src/repo/a.rpm" Scenario.exit2))
            (Disk.disk [] Disk.two_rpms)
            "/src/repo/*.rpm" "/tmp" "eext: " Scenario.boot).2)
    = Datatypes.length (done ++ [file]).
Proof.
  edestruct (CopyToDestDir_stops_at_first_failed_copy
               (Scenario.machine Scenario.tmp_ok (Scenario.prints "")
                  (Scenario.failing "/src/repo/a.rpm" Scenario.exit2))
               (Disk.disk [] Disk.two_rpms)
               "/src/repo/*.rpm" "/tmp" "eext: " Scenario.boot
               ["/src/repo/a.rpm"; "/src/repo/b.rpm"])
    as (done & file & rest & e & Hfiles & Hs & _);
    [vm_compute; reflexivity|vm_compute; reflexivity|vm_compute; reflexivity|].
  exists done, file, rest. split; [exact Hfiles|].
  rewrite Hs, !length_app, length_fmap. reflexivity.
Defined.
